(** * bitmap: a shallow embedding of [main.go]

    The program reads the two headers of a BMP file, and has an [apply]
    command whose pixel codec and transforms are present as functions of the
    right signature.  Every definition below follows the body of the Go
    function of the same name.

    Conventions.
    - A Go [string] is a [string] (a sequence of bytes), a [byte] is a
      [Byte.byte], an unsigned or signed fixed-width integer is a [Z] in the
      range of its type, a slice is a [list] (the nil slice is [[]]).
    - A function returning [(..., error)] returns a [result]; every error
      return of the source carries zero values next to the error, so nothing
      is lost.
    - The file system and the two output streams are the [World] that the
      effectful functions thread. *)

From Stdlib Require Import ZArith List String Ascii Bool Lia PeanoNat.
From Stdlib Require Import Strings.Byte.
From Stdlib Require Import DecimalString DecimalZ DecimalPos.
Import ListNotations.

Local Open Scope string_scope.
Local Open Scope Z_scope.

(** ** Data model *)

(** [type BMPHeader struct]: the first 14 bytes of the file. *)
Record BMPHeader : Type := mkBMPHeader {
  FileType : byte * byte;   (* [2]byte, "BM" *)
  FileSize : Z;             (* uint32 *)
  Reserved : Z;             (* uint32 *)
  OffsetData : Z            (* uint32 *)
}.

(** [type DIBHeader struct]: the next 40 bytes. *)
Record DIBHeader : Type := mkDIBHeader {
  DibHeaderSize : Z;        (* uint32 *)
  Width : Z;                (* int32 *)
  Height : Z;               (* int32 *)
  Planes : Z;               (* uint16 *)
  BitCount : Z;             (* uint16 *)
  Compression : Z;          (* uint32 *)
  ImageSize : Z;            (* uint32 *)
  XPixelsPerM : Z;          (* int32 *)
  YPixelsPerM : Z;          (* int32 *)
  ColorsUsed : Z;           (* uint32 *)
  ColorsImp : Z             (* uint32 *)
}.

(** [type Pixel struct]: one pixel of a 24-bit image. *)
Record Pixel : Type := mkPixel {
  Blue : byte;
  Green : byte;
  Red : byte
}.

(** [type Option struct]: a command-line option, name and value. *)
Record Option : Type := mkOption {
  Name : string;
  Value : string
}.

(** The error values the program builds, one constructor per
    [errors.New] / [fmt.Errorf] site; the comment gives the message. *)
Inductive io_error : Type :=
  | EOF                (* io.EOF: nothing could be read *)
  | ErrUnexpectedEOF.  (* io.ErrUnexpectedEOF: some bytes, but too few *)

Inductive error : Type :=
  | ErrNumberOfArguments                  (* "invalid number of arguments" *)
  | ErrUsageHeader                        (* "usage: ./bitmap header <bmp_file>" *)
  | ErrUsageApply                         (* "usage: ./bitmap apply [options] <source_file> <output_file>" *)
  | ErrOptionFormat (arg : string)        (* "invalid option format: %s" *)
  | ErrUnexpectedArgument (arg : string)  (* "unexpected argument: %s" *)
  | ErrUnknownCommand (command : string)  (* "unknown command: %s" *)
  | ErrOpeningFile                        (* "error opening file: %v" *)
  | ErrReadingBMPHeader (cause : io_error)(* "error reading BMP header: %v" *)
  | ErrNotValidBMP                        (* "error: not a valid BMP file" *)
  | ErrReadingDIBHeader (cause : io_error)(* "error reading DIB header: %v" *).

Inductive result (A : Type) : Type :=
  | Ok (a : A)
  | Err (e : error).
Arguments Ok {A} a.
Arguments Err {A} e.

Definition is_err {A : Type} (r : result A) : bool :=
  match r with Ok _ => false | Err _ => true end.

(** ** Command line: [parseArgs] *)

Module Strings.

(** [strings.HasPrefix(s, prefix)]. *)
Definition HasPrefix (s pre : string) : bool := String.prefix pre s.

(** The text before and after the first ["="] of [s], if there is one. *)
Fixpoint cutEq (s : string) : option (string * string) :=
  match s with
  | EmptyString => None
  | String c rest =>
      if Ascii.eqb c "="%char then Some (EmptyString, rest)
      else match cutEq rest with
           | Some (before, after) => Some (String c before, after)
           | None => None
           end
  end.

(** [strings.SplitN(s, "=", 2)]: at most two substrings, the second being
    the unsplit remainder; a single one when [s] has no ["="]. *)
Definition SplitN2 (s : string) : list string :=
  match cutEq s with
  | Some (before, after) => [before; after]
  | None => [s]
  end.

End Strings.

(** The body of the [for i := 1; i < len(args)-2; i++] loop of [parseArgs],
    run over the arguments [args[1 : len(args)-2]] in order;
    [orderedOptions] is the slice built so far. *)
Fixpoint parseOptions (optArgs : list string) (orderedOptions : list Option)
  : result (list Option) :=
  match optArgs with
  | [] => Ok orderedOptions
  | arg :: rest =>
      if Strings.HasPrefix arg "--" then
        match Strings.SplitN2 arg with
        | [name; value] =>
            parseOptions rest (orderedOptions ++ [mkOption name value])
        | _ => Err (ErrOptionFormat arg)
        end
      else Err (ErrUnexpectedArgument arg)
  end.

(** [func parseArgs(args []string) (command, filename, outputFilename string,
    orderedOptions []Option, err error)]. *)
Definition parseArgs (args : list string)
  : result (string * string * string * list Option) :=
  let len := List.length args in
  if (len <? 2)%nat then Err ErrNumberOfArguments
  else
    let command := nth 0 args "" in
    if (command =? "header")%string then
      if negb (len =? 2)%nat then Err ErrUsageHeader
      else Ok (command, nth 1 args "", "", [])
    else if (command =? "apply")%string then
      if (len <? 4)%nat then Err ErrUsageApply
      else
        let filename := nth (len - 2) args "" in
        let outputFilename := nth (len - 1) args "" in
        match parseOptions (firstn (len - 3) (skipn 1 args)) [] with
        | Err e => Err e
        | Ok orderedOptions =>
            Ok (command, filename, outputFilename, orderedOptions)
        end
    else Err (ErrUnknownCommand command).

(** ** The world: files and output streams *)

(** What the program prints, one constructor per print site (the help
    texts are constant blocks of lines). *)
Inductive output : Type :=
  | PrintOpening (filename : string)   (* Println("Opening file: <", filename, ">") *)
  | PrintError (e : error)             (* Println / Fprintln("Error:", err) *)
  | PrintGeneralHelp                   (* displayGeneralHelp() *)
  | PrintHeader (bmp : BMPHeader) (dib : DIBHeader). (* printHeader(bmp, dib) *)

Record World : Type := mkWorld {
  files : string -> option (list byte);  (* contents of the files that can be opened *)
  stdout : list output;
  stderr : list output
}.

Definition toStdout (w : World) (o : output) : World :=
  mkWorld (files w) (stdout w ++ [o]) (stderr w).

Definition toStderr (w : World) (o : output) : World :=
  mkWorld (files w) (stdout w) (stderr w ++ [o]).

(** ** [io] and [encoding/binary] *)

Module io.

(** An open file: the bytes not read yet. *)
Definition Reader : Type := list byte.

(** [io.ReadFull(r, buf)] with [len(buf) = n]: exactly [n] bytes, or
    [EOF] when none is left, or [ErrUnexpectedEOF] when too few are. *)
Definition ReadFull (r : Reader) (n : nat) : Reader * (list byte + io_error) :=
  if (List.length r <? n)%nat then
    ([], inr (if (List.length r =? 0)%nat then EOF else ErrUnexpectedEOF))
  else (skipn n r, inl (firstn n r)).

End io.

Module binary.

Definition u8 (b : byte) : Z := Z.of_N (Byte.to_N b).

(** [binary.LittleEndian.Uint16(b)] and [Uint32(b)]:
    [uint32(b[0]) | uint32(b[1])<<8 | uint32(b[2])<<16 | uint32(b[3])<<24]. *)
Definition Uint16 (b : list byte) : Z :=
  Z.lor (u8 (nth 0 b x00)) (Z.shiftl (u8 (nth 1 b x00)) 8).

Definition Uint32 (b : list byte) : Z :=
  Z.lor (Z.lor (Z.lor (u8 (nth 0 b x00))
                      (Z.shiftl (u8 (nth 1 b x00)) 8))
               (Z.shiftl (u8 (nth 2 b x00)) 16))
        (Z.shiftl (u8 (nth 3 b x00)) 24).

(** The conversion [int32(x)] of a [uint32]: same bits, two's complement. *)
Definition int32 (x : Z) : Z :=
  if x <? 2 ^ 31 then x else x - 2 ^ 32.

(** The [decoder] of the package: a buffer and an offset into it.  A
    decoding step reads at the offset and advances it.  An index beyond the
    buffer panics in Go; [Read] below sizes the buffer to the struct it
    decodes, so the default [x00] of [nth] is never produced (lemmas
    [decodeBMPHeader_at] and [decodeDIBHeader_at]). *)
Definition Dec (A : Type) : Type := list byte -> nat -> A * nat.

Definition ret {A : Type} (a : A) : Dec A := fun _ offset => (a, offset).

Definition bind {A B : Type} (m : Dec A) (k : A -> Dec B) : Dec B :=
  fun buf offset => let (a, offset') := m buf offset in k a buf offset'.

Definition uint8 : Dec byte :=
  fun buf offset => (nth offset buf x00, S offset).

Definition uint16 : Dec Z :=
  fun buf offset => (Uint16 (skipn offset buf), (offset + 2)%nat).

Definition uint32 : Dec Z :=
  fun buf offset => (Uint32 (skipn offset buf), (offset + 4)%nat).

(** [binary.Read(r, binary.LittleEndian, &v)] for a struct [v] of
    encoded size [size] whose fields [value] decodes in order. *)
Definition Read {A : Type} (size : nat) (value : Dec A) (r : io.Reader)
  : io.Reader * (A + io_error) :=
  match io.ReadFull r size with
  | (r', inl buf) => (r', inl (fst (value buf 0%nat)))
  | (r', inr e) => (r', inr e)
  end.

End binary.

Notation "x <- m ;; k" := (binary.bind m (fun x => k))
  (at level 61, m at next level, right associativity).

(** The fields of [BMPHeader] in declaration order: 2 + 4 + 4 + 4 bytes. *)
Definition decodeBMPHeader : binary.Dec BMPHeader :=
  t0 <- binary.uint8 ;;
  t1 <- binary.uint8 ;;
  fileSize <- binary.uint32 ;;
  reserved <- binary.uint32 ;;
  offsetData <- binary.uint32 ;;
  binary.ret (mkBMPHeader (t0, t1) fileSize reserved offsetData).

(** The fields of [DIBHeader] in declaration order: 40 bytes. *)
Definition decodeDIBHeader : binary.Dec DIBHeader :=
  dibHeaderSize <- binary.uint32 ;;
  width <- binary.uint32 ;;
  height <- binary.uint32 ;;
  planes <- binary.uint16 ;;
  bitCount <- binary.uint16 ;;
  compression <- binary.uint32 ;;
  imageSize <- binary.uint32 ;;
  xPixelsPerM <- binary.uint32 ;;
  yPixelsPerM <- binary.uint32 ;;
  colorsUsed <- binary.uint32 ;;
  colorsImp <- binary.uint32 ;;
  binary.ret (mkDIBHeader dibHeaderSize (binary.int32 width)
                (binary.int32 height) planes bitCount compression imageSize
                (binary.int32 xPixelsPerM) (binary.int32 yPixelsPerM)
                colorsUsed colorsImp).

(** ** [readHeaders] *)

(** [string(bmpHeader.FileType[:]) != "BM"], negated. *)
Definition isBM (t : byte * byte) : bool :=
  Byte.eqb (fst t) x42 && Byte.eqb (snd t) x4d.

(** [func readHeaders(filename string)], returning a [*BMPHeader], a
    [*DIBHeader] and an [error]. *)
Definition readHeaders (w : World) (filename : string)
  : World * result (BMPHeader * DIBHeader) :=
  let w := toStdout w (PrintOpening filename) in
  match files w filename with
  | None => (w, Err ErrOpeningFile)
  | Some file =>
      match binary.Read 14 decodeBMPHeader file with
      | (_, inr e) => (w, Err (ErrReadingBMPHeader e))
      | (file, inl bmpHeader) =>
          if negb (isBM (FileType bmpHeader)) then (w, Err ErrNotValidBMP)
          else
            match binary.Read 40 decodeDIBHeader file with
            | (_, inr e) => (w, Err (ErrReadingDIBHeader e))
            | (_, inl dibHeader) => (w, Ok (bmpHeader, dibHeader))
            end
      end
  end.

(** [func printHeader(bmp *BMPHeader, dib *DIBHeader)]. *)
Definition printHeader (w : World) (bmp : BMPHeader) (dib : DIBHeader) : World :=
  toStdout w (PrintHeader bmp dib).

(** [func displayGeneralHelp()]. *)
Definition displayGeneralHelp (w : World) : World :=
  toStdout w PrintGeneralHelp.

(** ** Pixel codec *)

(** [func readPixels(filename string, bmpHeader *BMPHeader,
    dibHeader *DIBHeader) ([]Pixel, error)]: the body is [return nil, nil]. *)
Definition readPixels (w : World) (filename : string)
    (bmpHeader : BMPHeader) (dibHeader : DIBHeader)
  : World * result (list Pixel) :=
  (w, Ok []).

(** [func writePixels(filename string, bmpHeader *BMPHeader,
    dibHeader *DIBHeader, pixels []Pixel) error]: the body is [return nil];
    no file is created and the two headers behind the pointers are left as
    they are. *)
Definition writePixels (w : World) (filename : string)
    (bmpHeader : BMPHeader) (dibHeader : DIBHeader) (pixels : list Pixel)
  : World * option error :=
  (w, None).

(** ** Transforms: each body is [return pixels] *)

Definition applyMirror (pixels : list Pixel) (width height : Z)
    (mode : string) : list Pixel :=
  pixels.

Definition applyFilter (pixels : list Pixel) (width height : Z)
    (filterType : string) : list Pixel :=
  pixels.

Definition applyRotate (pixels : list Pixel) (width height : Z)
    (angle : Z) : list Pixel :=
  pixels.

Definition applyCrop (pixels : list Pixel)
    (width height offsetX offsetY cropWidth cropHeight : Z) : list Pixel :=
  pixels.

(** ** [main] *)

(** The loop [for _, opt := range orderedOptions { switch opt.Name ... }] of
    [main], written over the four functions it calls so that the arguments of
    each call can be read off. *)
Section Pipeline.

Variable mirror : list Pixel -> Z -> Z -> string -> list Pixel.
Variable filter : list Pixel -> Z -> Z -> string -> list Pixel.
Variable rotate : list Pixel -> Z -> Z -> Z -> list Pixel.
Variable crop : list Pixel -> Z -> Z -> Z -> Z -> Z -> Z -> list Pixel.

Variable dibHeader : DIBHeader.

(** One iteration: the [switch opt.Name]. *)
Definition processOptionWith (pixels : list Pixel) (opt : Option) : list Pixel :=
  if (Name opt =? "--mirror")%string then
    mirror pixels (Width dibHeader) (Height dibHeader) (Value opt)
  else if (Name opt =? "--filter")%string then
    filter pixels (Width dibHeader) (Height dibHeader) (Value opt)
  else if (Name opt =? "--rotate")%string then
    let angle := 0 in
    rotate pixels (Width dibHeader) (Height dibHeader) angle
  else if (Name opt =? "--crop")%string then
    crop pixels (Width dibHeader) (Height dibHeader) 0 0 100 100
  else pixels.

Definition processOptionsWith (pixels : list Pixel)
    (orderedOptions : list Option) : list Pixel :=
  fold_left processOptionWith orderedOptions pixels.

End Pipeline.

Definition processOption : DIBHeader -> list Pixel -> Option -> list Pixel :=
  processOptionWith applyMirror applyFilter applyRotate applyCrop.

Definition processOptions : DIBHeader -> list Pixel -> list Option -> list Pixel :=
  processOptionsWith applyMirror applyFilter applyRotate applyCrop.

(** [func main()]: [osArgs] is [os.Args]; the result is the world after the
    run and the exit status. *)
Definition main (osArgs : list string) (w : World) : World * Z :=
  if (List.length osArgs <? 2)%nat then (displayGeneralHelp w, 1)
  else
    match parseArgs (skipn 1 osArgs) with
    | Err e => (toStdout w (PrintError e), 1)
    | Ok (command, filename, outputFilename, orderedOptions) =>
        match readHeaders w filename with
        | (w, Err e) => (toStderr w (PrintError e), 1)
        | (w, Ok (bmpHeader, dibHeader)) =>
            if (command =? "header")%string then
              (printHeader w bmpHeader dibHeader, 0)
            else if (command =? "apply")%string then
              match readPixels w filename bmpHeader dibHeader with
              | (w, Err e) => (toStdout w (PrintError e), 1)
              | (w, Ok pixels) =>
                  let pixels := processOptions dibHeader pixels orderedOptions in
                  match writePixels w outputFilename bmpHeader dibHeader pixels with
                  | (w, Some e) => (toStderr w (PrintError e), 1)
                  | (w, None) => (w, 0)
                  end
              end
            else (displayGeneralHelp w, 1)
        end
    end.

(** ** The file format, as the specification tabulates it

    The definitions of this part are written from the format table, not from
    the code: a field is the little-endian value of the bytes at its offset.
    They are what [readHeaders] is compared with. *)

Module Format.

(** The value of a byte sequence read least significant byte first. *)
Fixpoint leValue (bs : list byte) : Z :=
  match bs with
  | [] => 0
  | b :: rest => Z.of_N (Byte.to_N b) + 256 * leValue rest
  end.

(** The unsigned field of [size] bytes at [offset]. *)
Definition field (offset size : nat) (bytes : list byte) : Z :=
  leValue (firstn size (skipn offset bytes)).

(** The signed reading of a 32-bit field. *)
Definition signed32 (v : Z) : Z := (v + 2 ^ 31) mod 2 ^ 32 - 2 ^ 31.

Definition magic : list byte := [x42; x4d].  (* "BM" *)

Definition fileHeaderAt (bytes : list byte) : BMPHeader :=
  mkBMPHeader (nth 0 bytes x00, nth 1 bytes x00)
    (field 2 4 bytes) (field 6 4 bytes) (field 10 4 bytes).

Definition infoHeaderAt (bytes : list byte) : DIBHeader :=
  mkDIBHeader (field 14 4 bytes)
    (signed32 (field 18 4 bytes)) (signed32 (field 22 4 bytes))
    (field 26 2 bytes) (field 28 2 bytes)
    (field 30 4 bytes) (field 34 4 bytes)
    (signed32 (field 38 4 bytes)) (signed32 (field 42 4 bytes))
    (field 46 4 bytes) (field 50 4 bytes).

(** The inputs the specification's [parseHeaders] accepts: at least 54
    bytes, magic "BM", info-header size 40, 24 bits per pixel, no
    compression, one plane. *)
Definition accepts (bytes : list byte) : bool :=
  (54 <=? List.length bytes)%nat
  && (if list_eq_dec Byte.byte_eq_dec (firstn 2 bytes) magic then true else false)
  && (field 14 4 bytes =? 40)
  && (field 28 2 bytes =? 24)
  && (field 30 4 bytes =? 0)
  && (field 26 2 bytes =? 1).

End Format.

(** ** Sample data *)

(** A 1x1 white image: 54 header bytes and one padded row. *)
Definition sampleBMP : list byte :=
  [x42; x4d;  x3a; x00; x00; x00;  x00; x00; x00; x00;  x36; x00; x00; x00;
   x28; x00; x00; x00;  x01; x00; x00; x00;  x01; x00; x00; x00;
   x01; x00;  x18; x00;  x00; x00; x00; x00;  x04; x00; x00; x00;
   x13; x0b; x00; x00;  x13; x0b; x00; x00;
   x00; x00; x00; x00;  x00; x00; x00; x00;
   xff; xff; xff; x00].

(** The same file declaring 32 bits per pixel. *)
Definition sampleBMP32 : list byte :=
  firstn 28 sampleBMP ++ [x20; x00] ++ skipn 30 sampleBMP.

Definition sampleWorld : World :=
  mkWorld (fun name =>
             if (name =? "in.bmp")%string then Some sampleBMP
             else if (name =? "deep.bmp")%string then Some sampleBMP32
             else None)
          [] [].

Definition sampleBMPHeader : BMPHeader := Format.fileHeaderAt sampleBMP.
Definition sampleDIBHeader : DIBHeader := Format.infoHeaderAt sampleBMP.

Definition white : Pixel := mkPixel xff xff xff.
Definition black : Pixel := mkPixel x00 x00 x00.
Definition redPx : Pixel := mkPixel x00 x00 xff.
Definition greenPx : Pixel := mkPixel x00 xff x00.
Definition bluePx : Pixel := mkPixel xff x00 x00.

(** ** The transforms, as the specification words them

    Written from the specification, over the same row-major pixel slices,
    for comparison with the functions of the source. *)

Module Reference.

(** The pixel at row [r], column [c] of a buffer [width] pixels wide. *)
Definition at_ (pixels : list Pixel) (width r c : nat) : Pixel :=
  nth (r * width + c) pixels (mkPixel x00 x00 x00).

(** The buffer of the given dimensions whose pixel at [r], [c] is [f r c]. *)
Definition build (width height : nat) (f : nat -> nat -> Pixel) : list Pixel :=
  flat_map (fun r => map (f r) (seq 0 width)) (seq 0 height).

(** [output[x][y] = input[height-1-y][x]], output [height] wide. *)
Definition rotate90 (pixels : list Pixel) (width height : nat) : list Pixel :=
  build height width (fun x y => at_ pixels width (height - 1 - y) x).

Definition mirrorHorizontal (pixels : list Pixel) (width height : nat) : list Pixel :=
  build width height (fun r c => at_ pixels width r (width - 1 - c)).

Definition mirrorVertical (pixels : list Pixel) (width height : nat) : list Pixel :=
  build width height (fun r c => at_ pixels width (height - 1 - r) c).

(** [[original[offsetY+y][offsetX+x]]], output [cropWidth] wide. *)
Definition crop (pixels : list Pixel)
    (width height offsetX offsetY cropWidth cropHeight : nat) : list Pixel :=
  build cropWidth cropHeight
    (fun y x => at_ pixels width (offsetY + y) (offsetX + x)).

(** [255 - channel]. *)
Definition negateChannel (c : byte) : byte :=
  match Byte.of_N (255 - Byte.to_N c) with
  | Some c' => c'
  | None => x00
  end.

Definition negative (pixels : list Pixel) : list Pixel :=
  map (fun p => mkPixel (negateChannel (Blue p)) (negateChannel (Green p))
                        (negateChannel (Red p)))
      pixels.

(** [rowBytes = ((width*3 + 3) / 4) * 4]. *)
Definition rowBytes (width : Z) : Z := ((width * 3 + 3) / 4) * 4.

End Reference.

(** A 4x2 image with eight different pixels, and a 2x2 one. *)
Definition gray (v : byte) : Pixel := mkPixel v v v.

Definition image4x2 : list Pixel :=
  [gray x10; gray x11; gray x12; gray x13;
   gray x20; gray x21; gray x22; gray x23].

Definition image2x2 : list Pixel := [redPx; greenPx; bluePx; white].

Definition white2x2 : list Pixel := [white; white; white; white].
Definition black2x2 : list Pixel := [black; black; black; black].

(** ** The option syntax of the command line

    [--name=value], as the help text of [apply] writes it; used to state
    what [parseArgs] accepts and returns. *)

(** Whether [s] has a ["="] in it. *)
Fixpoint containsEq (s : string) : bool :=
  match s with
  | EmptyString => false
  | String c rest => Ascii.eqb c "="%char || containsEq rest
  end.

(** The argument that stands for an option: name, ["="], value. *)
Definition renderOption (opt : Option) : string :=
  Name opt ++ "=" ++ Value opt.

(** An option name as [parseArgs] stores it: it starts with ["--"] and has
    no ["="] in it. *)
Definition optionName (name : string) : Prop :=
  Strings.HasPrefix name "--" = true /\ containsEq name = false.

(** The error [parseArgs] gives for an argument that is no option. *)
Definition argumentError (arg : string) : error :=
  if Strings.HasPrefix arg "--" then ErrOptionFormat arg
  else ErrUnexpectedArgument arg.

(** The four option names the loop of [main] knows. *)
Definition knownOptionName (name : string) : bool :=
  (name =? "--mirror")%string || (name =? "--filter")%string
  || (name =? "--rotate")%string || (name =? "--crop")%string.

(** A world with one more readable file. *)
Definition withFile (w : World) (name : string) (bytes : list byte) : World :=
  mkWorld (fun n => if (n =? name)%string then Some bytes else files w n)
          (stdout w) (stderr w).

(** ** The text of [printHeader]

    What stands behind the [PrintHeader] output: one string for each
    [Println] / [Printf] call of [printHeader], without the newline that
    ends it. *)

Module fmt.

(** The verb [%d] on an integer: decimal digits, [-] in front of a
    negative number. *)
Definition d (z : Z) : string := NilZero.string_of_int (Z.to_int z).

(** The verb [%s] on [string(bmp.FileType[:])]: the two bytes as they are. *)
Definition s2 (t : byte * byte) : string :=
  String (ascii_of_byte (fst t)) (String (ascii_of_byte (snd t)) EmptyString).

End fmt.

Definition printHeaderLines (bmp : BMPHeader) (dib : DIBHeader) : list string :=
  ["BMP Header:";
   "- FileType " ++ fmt.s2 (FileType bmp);
   "- FileSizeInBytes " ++ fmt.d (FileSize bmp);
   "- HeaderSize " ++ fmt.d (OffsetData bmp);
   "DIB Header:";
   "- DibHeaderSize " ++ fmt.d (DibHeaderSize dib);
   "- WidthInPixels " ++ fmt.d (Width dib);
   "- HeightInPixels " ++ fmt.d (Height dib);
   "- PixelSizeInBits " ++ fmt.d (BitCount dib);
   "- ImageSizeInBytes " ++ fmt.d (ImageSize dib)].

(** * Properties *)

(** ** Command line *)

Example parseArgs_header :
  parseArgs ["header"; "in.bmp"] = Ok ("header", "in.bmp", "", []).
Proof. reflexivity. Qed.

Example parseArgs_apply_two :
  parseArgs ["apply"; "--rotate=90"; "--mirror=a=b"; "in.bmp"; "out.bmp"]
  = Ok ("apply", "in.bmp", "out.bmp",
        [mkOption "--rotate" "90"; mkOption "--mirror" "a=b"]).
Proof. reflexivity. Qed.

Example parseArgs_apply_bad_option :
  parseArgs ["apply"; "--help"; "in.bmp"; "out.bmp"]
  = Err (ErrOptionFormat "--help").
Proof. reflexivity. Qed.

Example parseArgs_apply_stray_argument :
  parseArgs ["apply"; "mirror"; "in.bmp"; "out.bmp"]
  = Err (ErrUnexpectedArgument "mirror").
Proof. reflexivity. Qed.

Example parseArgs_unknown_command :
  parseArgs ["show"; "in.bmp"] = Err (ErrUnknownCommand "show").
Proof. reflexivity. Qed.

(** The loop of [parseArgs] only ever appends to the options built so far. *)
Lemma parseOptions_length (optArgs : list string) :
  forall acc opts,
    parseOptions optArgs acc = Ok opts ->
    List.length opts = (List.length acc + List.length optArgs)%nat.
Proof.
  induction optArgs as [| arg rest IH]; intros acc opts H; simpl in H.
  - injection H as <-. simpl. lia.
  - destruct (Strings.HasPrefix arg "--"); [| discriminate].
    destruct (Strings.SplitN2 arg) as [| name [| value [| ? ?]]];
      try discriminate.
    apply IH in H. rewrite H, length_app. simpl. lia.
Qed.

(** ** Little-endian decoding *)

Section Bits.

Lemma land_low_shiftl (a b n : Z) :
  0 <= n -> 0 <= a < 2 ^ n -> Z.land a (Z.shiftl b n) = 0.
Proof.
  intros Hn Ha. apply Z.bits_inj'. intros i Hi.
  rewrite Z.land_spec, Z.bits_0.
  destruct (Z.lt_ge_cases i n) as [Hlt | Hge].
  - rewrite (Z.shiftl_spec_low b n i Hlt). apply andb_false_r.
  - destruct (Z.eq_dec a 0) as [-> | Hnz].
    + rewrite Z.bits_0. reflexivity.
    + rewrite (Z.bits_above_log2 a i); [reflexivity | lia |].
      apply Z.log2_lt_pow2; [lia |].
      apply Z.lt_le_trans with (2 ^ n); [lia |].
      apply Z.pow_le_mono_r; lia.
Qed.

Lemma lor_shiftl_add (a b n : Z) :
  0 <= n -> 0 <= a < 2 ^ n -> Z.lor a (Z.shiftl b n) = a + b * 2 ^ n.
Proof.
  intros Hn Ha.
  rewrite <- (Z.shiftl_mul_pow2 b n Hn).
  rewrite <- (Z.add_lor_land a (Z.shiftl b n)).
  rewrite (land_low_shiftl a b n Hn Ha). lia.
Qed.

Lemma u8_range (b : byte) : 0 <= binary.u8 b < 256.
Proof.
  unfold binary.u8. pose proof (Byte.to_N_bounded b). lia.
Qed.

Lemma Uint16_le (b0 b1 : byte) (rest : list byte) :
  binary.Uint16 (b0 :: b1 :: rest) = Format.leValue [b0; b1].
Proof.
  unfold binary.Uint16. cbn [nth Format.leValue].
  fold (binary.u8 b0). fold (binary.u8 b1).
  pose proof (u8_range b0). pose proof (u8_range b1).
  rewrite lor_shiftl_add by lia. lia.
Qed.

Lemma Uint32_le (b0 b1 b2 b3 : byte) (rest : list byte) :
  binary.Uint32 (b0 :: b1 :: b2 :: b3 :: rest) = Format.leValue [b0; b1; b2; b3].
Proof.
  unfold binary.Uint32. cbn [nth Format.leValue].
  fold (binary.u8 b0). fold (binary.u8 b1).
  fold (binary.u8 b2). fold (binary.u8 b3).
  pose proof (u8_range b0). pose proof (u8_range b1).
  pose proof (u8_range b2). pose proof (u8_range b3).
  rewrite (lor_shiftl_add (binary.u8 b0) (binary.u8 b1) 8) by lia.
  rewrite (lor_shiftl_add _ (binary.u8 b2) 16) by lia.
  rewrite (lor_shiftl_add _ (binary.u8 b3) 24) by lia.
  lia.
Qed.

Lemma leValue_range (bs : list byte) :
  0 <= Format.leValue bs < 256 ^ Z.of_nat (List.length bs).
Proof.
  induction bs as [| b rest IH].
  - simpl. lia.
  - cbn [Format.leValue List.length]. rewrite Nat2Z.inj_succ, Z.pow_succ_r by lia.
    pose proof (u8_range b) as Hb. unfold binary.u8 in Hb. lia.
Qed.

Lemma int32_signed32 (v : Z) :
  0 <= v < 2 ^ 32 -> binary.int32 v = Format.signed32 v.
Proof.
  intros Hv. unfold binary.int32, Format.signed32.
  destruct (Z.ltb_spec v (2 ^ 31)) as [Hlt | Hge].
  - rewrite Z.mod_small; lia.
  - replace (v + 2 ^ 31) with ((v - 2 ^ 31) + 1 * 2 ^ 32) by lia.
    rewrite Z.mod_add by lia. rewrite Z.mod_small; lia.
Qed.

End Bits.

(** ** Reading the headers *)

Ltac uncons bytes Hlen :=
  repeat (destruct bytes as [| ?b bytes]; [simpl in Hlen; lia |]).

Lemma Read_enough {A : Type} (size : nat) (value : binary.Dec A) (r : io.Reader) :
  (size <= List.length r)%nat ->
  binary.Read size value r = (skipn size r, inl (fst (value (firstn size r) 0%nat))).
Proof.
  intros Hlen. unfold binary.Read, io.ReadFull.
  destruct (Nat.ltb_spec (List.length r) size); [lia | reflexivity].
Qed.

Lemma Read_short {A : Type} (size : nat) (value : binary.Dec A) (r : io.Reader) :
  (List.length r < size)%nat ->
  binary.Read size value r
  = ([], inr (if (List.length r =? 0)%nat then EOF else ErrUnexpectedEOF)).
Proof.
  intros Hlen. unfold binary.Read, io.ReadFull.
  destruct (Nat.ltb_spec (List.length r) size); [reflexivity | lia].
Qed.

Lemma signed_field (b0 b1 b2 b3 : byte) :
  binary.int32 (Format.leValue [b0; b1; b2; b3])
  = Format.signed32 (Format.leValue [b0; b1; b2; b3]).
Proof.
  apply int32_signed32.
  pose proof (leValue_range [b0; b1; b2; b3]) as H.
  change (256 ^ Z.of_nat (List.length [b0; b1; b2; b3])) with (2 ^ 32) in H.
  exact H.
Qed.

(** Decoding the first 14 bytes gives the file header of the format table. *)
Lemma decodeBMPHeader_at (bytes : list byte) :
  (14 <= List.length bytes)%nat ->
  fst (decodeBMPHeader (firstn 14 bytes) 0%nat) = Format.fileHeaderAt bytes.
Proof.
  intros Hlen. uncons bytes Hlen.
  unfold decodeBMPHeader, binary.bind, binary.uint8, binary.uint32, binary.ret,
    Format.fileHeaderAt, Format.field.
  cbn [firstn skipn nth fst Nat.add].
  rewrite !Uint32_le. reflexivity.
Qed.

(** Decoding the next 40 bytes gives the info header of the format table. *)
Lemma decodeDIBHeader_at (bytes : list byte) :
  (54 <= List.length bytes)%nat ->
  fst (decodeDIBHeader (firstn 40 (skipn 14 bytes)) 0%nat)
  = Format.infoHeaderAt bytes.
Proof.
  intros Hlen. uncons bytes Hlen.
  unfold decodeDIBHeader, binary.bind, binary.uint16, binary.uint32, binary.ret,
    Format.infoHeaderAt, Format.field.
  cbn [firstn skipn nth fst Nat.add].
  rewrite !Uint32_le, !Uint16_le, !signed_field. reflexivity.
Qed.

Lemma isBM_magic (bytes : list byte) :
  isBM (nth 0 bytes x00, nth 1 bytes x00) = true
  <-> firstn 2 bytes = Format.magic.
Proof.
  unfold isBM, Format.magic. cbn [fst snd]. rewrite andb_true_iff.
  destruct bytes as [| b0 [| b1 rest]]; cbn [nth firstn].
  - split; [intros [H _] | intros H]; discriminate.
  - split; [intros [_ H] | intros H]; discriminate.
  - split.
    + intros [H0 H1]. apply Byte.byte_dec_bl in H0, H1. congruence.
    + intros H. injection H as -> ->. split; reflexivity.
Qed.

(** What [readHeaders] returns, by the order of its checks. *)
Lemma readHeaders_result (w : World) (filename : string) :
  snd (readHeaders w filename) =
  match files w filename with
  | None => Err ErrOpeningFile
  | Some bytes =>
      if (List.length bytes <? 14)%nat then
        Err (ErrReadingBMPHeader
               (if (List.length bytes =? 0)%nat then EOF else ErrUnexpectedEOF))
      else if negb (isBM (nth 0 bytes x00, nth 1 bytes x00)) then
        Err ErrNotValidBMP
      else if (List.length bytes <? 54)%nat then
        Err (ErrReadingDIBHeader
               (if (List.length bytes =? 14)%nat then EOF else ErrUnexpectedEOF))
      else Ok (Format.fileHeaderAt bytes, Format.infoHeaderAt bytes)
  end.
Proof.
  unfold readHeaders. cbn [toStdout files].
  destruct (files w filename) as [bytes |]; [| reflexivity].
  destruct (Nat.ltb_spec (List.length bytes) 14) as [Hlt | Hge].
  - rewrite Read_short by exact Hlt. reflexivity.
  - rewrite Read_enough by exact Hge.
    rewrite decodeBMPHeader_at by exact Hge.
    cbn [FileType Format.fileHeaderAt].
    destruct (isBM (nth 0 bytes x00, nth 1 bytes x00)); cbn [negb];
      [| reflexivity].
    assert (Hskip : List.length (skipn 14 bytes) = (List.length bytes - 14)%nat)
      by apply length_skipn.
    destruct (Nat.ltb_spec (List.length bytes) 54) as [Hlt | Hge54].
    + rewrite Read_short by lia. rewrite Hskip. cbn [snd].
      destruct (Nat.eqb_spec (List.length bytes - 14) 0),
               (Nat.eqb_spec (List.length bytes) 14); try lia; reflexivity.
    + rewrite Read_enough by lia.
      rewrite decodeDIBHeader_at by exact Hge54. reflexivity.
Qed.

(** [readHeaders] prints one line and leaves the files alone. *)
Lemma readHeaders_world (w : World) (filename : string) :
  fst (readHeaders w filename) = toStdout w (PrintOpening filename).
Proof.
  unfold readHeaders. cbn [toStdout files].
  destruct (files w filename) as [bytes |]; [| reflexivity].
  destruct (binary.Read 14 decodeBMPHeader bytes) as [r [bmp | e]];
    [| reflexivity].
  destruct (negb (isBM (FileType bmp))); [reflexivity |].
  destruct (binary.Read 40 decodeDIBHeader r) as [r' [dib | e]]; reflexivity.
Qed.

(** C2 (amended): [readHeaders] fails exactly when the file cannot be
    opened, or holds fewer than 54 bytes, or does not start with "BM"; the
    info-header size, bit count, compression and planes are not examined.
    On every other input it returns the two headers with every multi-byte
    field read little-endian at its offset of the format table. *)
Theorem readHeaders_checks_size_and_magic (w : World) (filename : string) :
  (is_err (snd (readHeaders w filename)) = true <->
     files w filename = None \/
     exists bytes, files w filename = Some bytes /\
       ((List.length bytes < 54)%nat \/ firstn 2 bytes <> Format.magic))
  /\
  (forall bytes,
     files w filename = Some bytes ->
     (54 <= List.length bytes)%nat ->
     firstn 2 bytes = Format.magic ->
     snd (readHeaders w filename)
     = Ok (Format.fileHeaderAt bytes, Format.infoHeaderAt bytes)).
Proof.
  rewrite readHeaders_result.
  destruct (files w filename) as [bytes |].
  - pose proof (isBM_magic bytes) as HBM.
    destruct (Nat.ltb_spec (List.length bytes) 14) as [H14 | H14];
      [| destruct (isBM (nth 0 bytes x00, nth 1 bytes x00)); cbn [negb];
         [destruct (Nat.ltb_spec (List.length bytes) 54) as [H54 | H54] |]];
      cbn [is_err].
    + split.
      * split; [intros _ | reflexivity].
        right. exists bytes. split; [reflexivity | left; lia].
      * intros bytes' [= <-] Hlen _. lia.
    + split.
      * split; [intros _ | reflexivity].
        right. exists bytes. split; [reflexivity | left; lia].
      * intros bytes' [= <-] Hlen _. lia.
    + split.
      * split; [discriminate |].
        intros [Hnone | [bytes' [[= <-] [Hlen | Hmagic]]]];
          [discriminate | lia | ].
        exfalso. apply Hmagic, HBM. reflexivity.
      * intros bytes' [= <-] _ _. reflexivity.
    + split.
      * split; [intros _ | reflexivity].
        right. exists bytes. split; [reflexivity | right].
        intros Hmagic. apply HBM in Hmagic. discriminate.
      * intros bytes' [= <-] _ Hmagic. apply HBM in Hmagic. discriminate.
  - cbn [is_err]. split.
    + split; [intros _; left; reflexivity | reflexivity].
    + intros bytes [=].
Qed.

Lemma readHeaders_checks_size_and_magic_witness :
  snd (readHeaders sampleWorld "in.bmp")
  = Ok (Format.fileHeaderAt sampleBMP, Format.infoHeaderAt sampleBMP).
Proof.
  apply (proj2 (readHeaders_checks_size_and_magic sampleWorld "in.bmp") sampleBMP).
  - reflexivity.
  - simpl. lia.
  - reflexivity.
Defined.

Example readHeaders_sample :
  snd (readHeaders sampleWorld "in.bmp")
  = Ok (mkBMPHeader (x42, x4d) 58 0 54,
        mkDIBHeader 40 1 1 1 24 0 4 2835 2835 0 0).
Proof. reflexivity. Qed.

Example readHeaders_truncated :
  snd (readHeaders (mkWorld (fun _ => Some (firstn 20 sampleBMP)) [] []) "x")
  = Err (ErrReadingDIBHeader ErrUnexpectedEOF).
Proof. reflexivity. Qed.

Example readHeaders_negative_height :
  option_map (fun d => Height d)
    (match snd (readHeaders
                  (mkWorld (fun _ => Some (firstn 22 sampleBMP
                                             ++ [xfe; xff; xff; xff]
                                             ++ skipn 26 sampleBMP)%list)
                          [] []) "x")
     with Ok (_, d) => Some d | Err _ => None end)
  = Some (-2).
Proof. reflexivity. Qed.

(** Neither are the info-header size, the planes and the compression
    examined: a file declaring 124, 3 and 1 there is read like any other. *)
Example readHeaders_other_fields_unchecked :
  let bytes := (firstn 14 sampleBMP ++ [x7c] ++ firstn 11 (skipn 15 sampleBMP)
                ++ [x03] ++ firstn 3 (skipn 27 sampleBMP)
                ++ [x01] ++ skipn 31 sampleBMP)%list in
  snd (readHeaders (mkWorld (fun _ => Some bytes) [] []) "odd.bmp")
  = Ok (mkBMPHeader (x42, x4d) 58 0 54,
        mkDIBHeader 124 1 1 3 24 1 4 2835 2835 0 0).
Proof. reflexivity. Qed.

(** C2, as stated, fails: a file that declares 32 bits per pixel is outside
    the inputs the specification accepts, yet [readHeaders] returns its
    headers. *)
Lemma readHeaders_accepts_32_bits :
  Format.accepts sampleBMP32 = false /\
  exists bmp dib,
    snd (readHeaders sampleWorld "deep.bmp") = Ok (bmp, dib) /\
    BitCount dib = 32.
Proof.
  split; [reflexivity |].
  eexists _, _. split; reflexivity.
Qed.

(** ** The apply command line *)

(** An accepted [apply] command line has one option per argument between
    the command and the two file names. *)
Lemma parseArgs_apply_options (args : list string)
    (filename outputFilename : string) (opts : list Option) :
  parseArgs args = Ok ("apply", filename, outputFilename, opts) ->
  (4 <= List.length args)%nat /\
  List.length opts = (List.length args - 3)%nat.
Proof.
  unfold parseArgs.
  destruct (Nat.ltb_spec (List.length args) 2) as [| H2]; [discriminate |].
  destruct (String.eqb_spec (nth 0 args "") "header") as [Hc | Hc].
  - destruct (negb (List.length args =? 2)%nat); [discriminate |].
    intros [= Habs _ _ _]. rewrite Hc in Habs. discriminate.
  - destruct (nth 0 args "" =? "apply")%string; [| discriminate].
    destruct (Nat.ltb_spec (List.length args) 4) as [| H4]; [discriminate |].
    destruct (parseOptions _ []) as [found | e] eqn:Hloop; [| discriminate].
    intros [= _ _ _ <-]. split; [exact H4 |].
    apply parseOptions_length in Hloop. rewrite Hloop.
    rewrite length_firstn, length_skipn. simpl. lia.
Qed.

(** C10: [parseArgs] rejects ["apply", source_file, output_file]: with no
    option between the command and the file names it returns the usage error,
    not the two names with an empty option list; whenever it accepts an
    [apply] command line the option list is not empty. *)
Theorem parseArgs_apply_needs_an_option :
  (forall source output : string,
     parseArgs ["apply"; source; output] = Err ErrUsageApply) /\
  (forall (args : list string) (filename outputFilename : string)
          (opts : list Option),
     parseArgs args = Ok ("apply", filename, outputFilename, opts) ->
     opts <> []).
Proof.
  split.
  - intros source output. reflexivity.
  - intros args filename outputFilename opts H.
    apply parseArgs_apply_options in H. destruct H as [H4 Hlen].
    intros ->. simpl in Hlen. lia.
Qed.

Lemma parseArgs_apply_needs_an_option_witness :
  [mkOption "--mirror" "horizontal"] <> [].
Proof.
  apply (proj2 parseArgs_apply_needs_an_option
           ["apply"; "--mirror=horizontal"; "in.bmp"; "out.bmp"]
           "in.bmp" "out.bmp").
  reflexivity.
Defined.

(** ** The transforms and the pipeline *)

Lemma processOption_id (dib : DIBHeader) (pixels : list Pixel) (opt : Option) :
  processOption dib pixels opt = pixels.
Proof.
  unfold processOption, processOptionWith,
    applyMirror, applyFilter, applyRotate, applyCrop.
  destruct (Name opt =? "--mirror")%string; [reflexivity |].
  destruct (Name opt =? "--filter")%string; [reflexivity |].
  destruct (Name opt =? "--rotate")%string; [reflexivity |].
  destruct (Name opt =? "--crop")%string; reflexivity.
Qed.

Lemma processOptions_id (dib : DIBHeader) (opts : list Option) :
  forall pixels, processOptions dib pixels opts = pixels.
Proof.
  unfold processOptions, processOptionsWith.
  induction opts as [| opt rest IH]; intros pixels; cbn [fold_left].
  - reflexivity.
  - fold (processOption dib pixels opt).
    rewrite processOption_id. apply IH.
Qed.

(** C9: each of [applyMirror], [applyFilter], [applyRotate] and [applyCrop]
    returns the pixel slice it was given, whatever the other arguments, and
    so the option loop of [main] returns the pixels it started from, for
    every option list. *)
Theorem transforms_return_their_input :
  (forall pixels width height mode,
     applyMirror pixels width height mode = pixels) /\
  (forall pixels width height filterType,
     applyFilter pixels width height filterType = pixels) /\
  (forall pixels width height angle,
     applyRotate pixels width height angle = pixels) /\
  (forall pixels width height offsetX offsetY cropWidth cropHeight,
     applyCrop pixels width height offsetX offsetY cropWidth cropHeight
     = pixels) /\
  (forall dib opts pixels, processOptions dib pixels opts = pixels).
Proof.
  repeat split; try reflexivity.
  intros dib opts pixels. apply processOptions_id.
Qed.

(** C3, at [--rotate=90] and [--crop=1-1-2-2]: the loop calls the rotate
    function with angle 0 and the crop function with 0, 0, 100, 100, whatever
    the option's value is, and with the header's dimensions. *)
Theorem rotate_and_crop_values_are_dropped
    (mirror filter : list Pixel -> Z -> Z -> string -> list Pixel)
    (rotate : list Pixel -> Z -> Z -> Z -> list Pixel)
    (crop : list Pixel -> Z -> Z -> Z -> Z -> Z -> Z -> list Pixel)
    (dib : DIBHeader) (pixels : list Pixel) :
  processOptionsWith mirror filter rotate crop dib pixels
    [mkOption "--rotate" "90"]
  = rotate pixels (Width dib) (Height dib) 0
  /\
  processOptionsWith mirror filter rotate crop dib pixels
    [mkOption "--crop" "1-1-2-2"]
  = crop pixels (Width dib) (Height dib) 0 0 100 100.
Proof.
  split; reflexivity.
Qed.

(** The same for every value, and for two options in a row: the second
    call receives the same header dimensions as the first. *)
Lemma rotate_value_is_dropped
    (mirror filter : list Pixel -> Z -> Z -> string -> list Pixel)
    (rotate : list Pixel -> Z -> Z -> Z -> list Pixel)
    (crop : list Pixel -> Z -> Z -> Z -> Z -> Z -> Z -> list Pixel)
    (dib : DIBHeader) (pixels : list Pixel) (v1 v2 : string) :
  processOptionsWith mirror filter rotate crop dib pixels
    [mkOption "--rotate" v1; mkOption "--rotate" v2]
  = rotate (rotate pixels (Width dib) (Height dib) 0)
           (Width dib) (Height dib) 0.
Proof. reflexivity. Qed.

(** An option with another name is skipped without an error. *)
Lemma unknown_option_is_skipped
    (mirror filter : list Pixel -> Z -> Z -> string -> list Pixel)
    (rotate : list Pixel -> Z -> Z -> Z -> list Pixel)
    (crop : list Pixel -> Z -> Z -> Z -> Z -> Z -> Z -> list Pixel)
    (dib : DIBHeader) (pixels : list Pixel) (v : string) :
  processOptionsWith mirror filter rotate crop dib pixels
    [mkOption "--scale" v]
  = pixels.
Proof. reflexivity. Qed.

(** ** The pixel codec and the transforms at concrete images *)

(** C1, at a 1x1 white buffer: nothing is written, and reading back gives
    the nil slice, not the buffer. *)
Theorem write_then_read_loses_the_buffer :
  let w' := fst (writePixels sampleWorld "out.bmp"
                   sampleBMPHeader sampleDIBHeader [white]) in
  files w' "out.bmp" = None /\
  snd (readPixels w' "out.bmp" sampleBMPHeader sampleDIBHeader) = Ok [] /\
  snd (readPixels w' "out.bmp" sampleBMPHeader sampleDIBHeader) <> Ok [white].
Proof.
  cbv zeta. repeat split. discriminate.
Qed.

(** The same for every world, file name, header pair and buffer. *)
Lemma readPixels_after_writePixels (w : World) (filename : string)
    (bmp : BMPHeader) (dib : DIBHeader) (pixels : list Pixel) :
  readPixels (fst (writePixels w filename bmp dib pixels)) filename bmp dib
  = (w, Ok []).
Proof. reflexivity. Qed.

(** C4, at the 2x2 image and the crop 0-0-1-1: the result is the whole
    image, four pixels, where the requested sub-rectangle is its first
    pixel alone; through the option loop, a value that is no crop at all
    gives no error either. *)
Theorem crop_returns_the_whole_image :
  applyCrop image2x2 2 2 0 0 1 1 = image2x2 /\
  Reference.crop image2x2 2 2 0 0 1 1 = [redPx] /\
  applyCrop image2x2 2 2 0 0 1 1 <> Reference.crop image2x2 2 2 0 0 1 1 /\
  applyCrop image2x2 2 2 1 1 5 5 = image2x2 /\
  processOption sampleDIBHeader image2x2 (mkOption "--crop" "a-b") = image2x2.
Proof.
  repeat split. discriminate.
Qed.

(** C5, at the 4x2 image and angle 90: the result is the input, where the
    clockwise mapping [output[x][y] = input[height-1-y][x]] gives a 2x4
    image with other pixel positions; through the option loop, an angle
    outside the accepted ones gives no error. *)
Theorem rotate_returns_the_input :
  applyRotate image4x2 4 2 90 = image4x2 /\
  Reference.rotate90 image4x2 4 2
  = [gray x20; gray x10; gray x21; gray x11;
     gray x22; gray x12; gray x23; gray x13] /\
  applyRotate image4x2 4 2 90 <> Reference.rotate90 image4x2 4 2 /\
  processOption sampleDIBHeader image4x2 (mkOption "--rotate" "45") = image4x2.
Proof.
  repeat split. discriminate.
Qed.

(** C6, at the 2x2 image: both modes return the input, where a horizontal
    mirror swaps the two columns and a vertical one the two rows; an
    unknown mode returns the input too, without an error. *)
Theorem mirror_returns_the_input :
  applyMirror image2x2 2 2 "horizontal" = image2x2 /\
  Reference.mirrorHorizontal image2x2 2 2 = [greenPx; redPx; white; bluePx] /\
  applyMirror image2x2 2 2 "horizontal" <> Reference.mirrorHorizontal image2x2 2 2 /\
  applyMirror image2x2 2 2 "vertical" = image2x2 /\
  Reference.mirrorVertical image2x2 2 2 = [bluePx; white; redPx; greenPx] /\
  applyMirror image2x2 2 2 "vertical" <> Reference.mirrorVertical image2x2 2 2 /\
  applyMirror image2x2 2 2 "diagonal" = image2x2.
Proof.
  repeat split; discriminate.
Qed.

(** C7, at the 2x2 all-white buffer: the negative filter returns it
    all-white, where [255 - channel] gives the all-black buffer. *)
Theorem negative_of_white_is_white :
  applyFilter white2x2 2 2 "negative" = white2x2 /\
  Reference.negative white2x2 = black2x2 /\
  applyFilter white2x2 2 2 "negative" <> black2x2.
Proof.
  repeat split. discriminate.
Qed.

(** C8, at the sample headers and a 1x1 white buffer: [writePixels]
    reports success and the world is the one it started from, so the output
    file does not exist, where 54 header bytes with file size
    [54 + rowBytes] = 58 and image size 4 were to be written. *)
Theorem writePixels_writes_no_header :
  writePixels sampleWorld "out.bmp" sampleBMPHeader sampleDIBHeader [white]
  = (sampleWorld, None) /\
  files sampleWorld "out.bmp" = None /\
  54 + Reference.rowBytes 1 * 1 = 58.
Proof.
  repeat split.
Qed.

(** A whole run of [apply]: exit status 0, one line printed, and no
    output file. *)
Example main_apply_negative :
  let (w', status) :=
    main ["bitmap"; "apply"; "--filter=negative"; "in.bmp"; "out.bmp"]
         sampleWorld in
  status = 0 /\
  stdout w' = [PrintOpening "in.bmp"] /\ stderr w' = [] /\
  files w' "out.bmp" = None.
Proof.
  cbv. repeat split.
Qed.

Example main_apply_without_options :
  main ["bitmap"; "apply"; "in.bmp"; "out.bmp"] sampleWorld
  = (toStdout sampleWorld (PrintError ErrUsageApply), 1).
Proof. reflexivity. Qed.

Example main_header_wrong_magic :
  snd (main ["bitmap"; "header"; "notes.txt"]
         (mkWorld (fun _ => Some (x48 :: x69 :: skipn 2 sampleBMP)) [] []))
  = 1.
Proof. reflexivity. Qed.

(** * Further properties *)

(** ** Splitting an argument at its first ["="] *)

Lemma cutEq_render (name value : string) :
  containsEq name = false ->
  Strings.cutEq (name ++ "=" ++ value) = Some (name, value).
Proof.
  induction name as [| c name IH]; intros Hno.
  - reflexivity.
  - cbn [containsEq] in Hno. apply orb_false_iff in Hno as [Hc Hrest].
    cbn [String.append Strings.cutEq]. rewrite Hc.
    change (name ++ String "=" value) with (name ++ "=" ++ value).
    rewrite (IH Hrest). reflexivity.
Qed.

Lemma cutEq_sound (s before after : string) :
  Strings.cutEq s = Some (before, after) ->
  s = before ++ "=" ++ after /\ containsEq before = false.
Proof.
  revert before. induction s as [| c s IH]; intros before H.
  - discriminate.
  - cbn [Strings.cutEq] in H.
    destruct (Ascii.eqb_spec c "="%char) as [-> | Hc].
    + injection H as <- <-. split; reflexivity.
    + destruct (Strings.cutEq s) as [[b a] |]; [| discriminate].
      injection H as <- <-. destruct (IH b eq_refl) as [-> Hno].
      split; [reflexivity |].
      cbn [containsEq]. rewrite Hno.
      destruct (Ascii.eqb_spec c "="%char); [contradiction | reflexivity].
Qed.

Lemma cutEq_none (s : string) :
  Strings.cutEq s = None <-> containsEq s = false.
Proof.
  induction s as [| c s IH]; cbn [Strings.cutEq containsEq].
  - split; reflexivity.
  - destruct (Ascii.eqb c "="%char); cbn [orb].
    + split; discriminate.
    + destruct (Strings.cutEq s) as [[b a] |].
      * split; [discriminate |]. intros H. apply IH in H. discriminate.
      * split; [intros _; apply IH; reflexivity | reflexivity].
Qed.

Lemma HasPrefix_append (name rest : string) :
  Strings.HasPrefix name "--" = true ->
  Strings.HasPrefix (name ++ rest) "--" = true.
Proof.
  unfold Strings.HasPrefix.
  destruct name as [| c0 [| c1 name]]; cbn [String.prefix String.append].
  - discriminate.
  - destruct (ascii_dec "-" c0); discriminate.
  - destruct (ascii_dec "-" c0); [| discriminate].
    destruct (ascii_dec "-" c1); [| discriminate].
    intros _. destruct (name ++ rest); reflexivity.
Qed.

Lemma HasPrefix_before_eq (before after : string) :
  containsEq before = false ->
  Strings.HasPrefix (before ++ "=" ++ after) "--" = true ->
  Strings.HasPrefix before "--" = true.
Proof.
  unfold Strings.HasPrefix.
  destruct before as [| c0 [| c1 before]];
    cbn [String.prefix String.append containsEq]; intros Hno H.
  - destruct (ascii_dec "-" "="); discriminate.
  - destruct (ascii_dec "-" c0); [| discriminate].
    destruct (ascii_dec "-" "="); discriminate.
  - destruct (ascii_dec "-" c0); [| discriminate].
    destruct (ascii_dec "-" c1); [| discriminate].
    destruct before; reflexivity.
Qed.

Lemma containsEq_render (opt : Option) :
  containsEq (renderOption opt) = true.
Proof.
  unfold renderOption. generalize (Name opt) as name.
  induction name as [| c name IH]; simpl in *.
  - reflexivity.
  - rewrite IH. apply orb_true_r.
Qed.

(** ** The option loop of [parseArgs] *)

Local Open Scope list_scope.

Lemma parseOptions_render (opts : list Option) :
  Forall (fun opt => optionName (Name opt)) opts ->
  forall acc, parseOptions (map renderOption opts) acc = Ok (acc ++ opts).
Proof.
  induction 1 as [| opt opts [Hpre Hno] _ IH]; intros acc; cbn [map parseOptions].
  - rewrite app_nil_r. reflexivity.
  - unfold renderOption at 1 2. rewrite (HasPrefix_append _ _ Hpre).
    unfold Strings.SplitN2. rewrite (cutEq_render _ _ Hno).
    rewrite IH, <- app_assoc. destruct opt; reflexivity.
Qed.

Lemma parseOptions_sound (optArgs : list string) :
  forall acc res,
    parseOptions optArgs acc = Ok res ->
    exists opts,
      res = (acc ++ opts)%list /\ optArgs = map renderOption opts /\
      Forall (fun opt => optionName (Name opt)) opts.
Proof.
  induction optArgs as [| arg rest IH]; intros acc res H; cbn [parseOptions] in H.
  - injection H as <-. exists []. rewrite app_nil_r. repeat split. constructor.
  - destruct (Strings.HasPrefix arg "--") eqn:Hpre; [| discriminate].
    unfold Strings.SplitN2 in H.
    destruct (Strings.cutEq arg) as [[name value] |] eqn:Hcut; [| discriminate].
    apply IH in H. destruct H as [opts [-> [-> Hall]]].
    apply cutEq_sound in Hcut. destruct Hcut as [-> Hno].
    exists (mkOption name value :: opts). split; [| split].
    + rewrite <- app_assoc. reflexivity.
    + reflexivity.
    + constructor; [| exact Hall]. split; [| exact Hno].
      cbn [Name]. exact (HasPrefix_before_eq _ _ Hno Hpre).
Qed.

Lemma parseOptions_first_bad (good : list Option) (bad : string)
    (rest : list string) :
  Forall (fun opt => optionName (Name opt)) good ->
  Strings.HasPrefix bad "--" = false \/ containsEq bad = false ->
  forall acc,
    parseOptions (map renderOption good ++ bad :: rest) acc
    = Err (argumentError bad).
Proof.
  intros Hgood Hbad.
  induction Hgood as [| opt good [Hpre Hno] _ IH]; intros acc;
    cbn [map app parseOptions].
  - unfold argumentError.
    destruct (Strings.HasPrefix bad "--") eqn:Hpre; [| reflexivity].
    destruct Hbad as [Hbad | Hbad]; [discriminate |].
    unfold Strings.SplitN2. apply cutEq_none in Hbad. rewrite Hbad. reflexivity.
  - unfold renderOption at 1 2. rewrite (HasPrefix_append _ _ Hpre).
    unfold Strings.SplitN2. rewrite (cutEq_render _ _ Hno). apply IH.
Qed.

(** ** The shape of an [apply] command line *)

Lemma args_length (command : string) (middle : list string)
    (source output : string) :
  List.length (command :: middle ++ [source; output])
  = (List.length middle + 3)%nat.
Proof.
  cbn [List.length]. rewrite length_app. cbn [List.length]. lia.
Qed.

Lemma args_parts (command : string) (middle : list string)
    (source output : string) :
  let args := command :: middle ++ [source; output] in
  nth (List.length args - 2) args "" = source /\
  nth (List.length args - 1) args "" = output /\
  firstn (List.length args - 3) (skipn 1 args) = middle.
Proof.
  cbv zeta. rewrite args_length. cbn [skipn].
  replace (List.length middle + 3 - 2)%nat with (S (List.length middle)) by lia.
  replace (List.length middle + 3 - 1)%nat with (S (S (List.length middle))) by lia.
  replace (List.length middle + 3 - 3)%nat with (List.length middle) by lia.
  cbn [nth]. repeat split.
  - rewrite app_nth2 by lia. rewrite Nat.sub_diag. reflexivity.
  - rewrite app_nth2 by lia.
    replace (S (List.length middle) - List.length middle)%nat with 1%nat by lia.
    reflexivity.
  - rewrite firstn_app, Nat.sub_diag, firstn_all. cbn [firstn].
    apply app_nil_r.
Qed.

(** Every list of at least three arguments is a command, some arguments in
    the middle and two more at the end. *)
Lemma three_args_shape (args : list string) :
  (3 <= List.length args)%nat ->
  exists command middle source output,
    args = command :: middle ++ [source; output].
Proof.
  intros Hlen. destruct args as [| command tail]; [simpl in Hlen; lia |].
  cbn [List.length] in Hlen.
  pose proof (firstn_skipn (List.length tail - 2) tail) as Hsplit.
  assert (Hk : List.length (skipn (List.length tail - 2) tail) = 2%nat)
    by (rewrite length_skipn; lia).
  destruct (skipn (List.length tail - 2) tail) as [| x [| y [| z l]]];
    try discriminate.
  exists command, (firstn (List.length tail - 2) tail), x, y.
  rewrite Hsplit. reflexivity.
Qed.

(** What [parseArgs] does with a command, arguments in the middle and two
    more arguments at the end. *)
Lemma parseArgs_three_unfold (command : string) (middle : list string)
    (source output : string) :
  parseArgs (command :: middle ++ [source; output])
  = if (command =? "header")%string then Err ErrUsageHeader
    else if (command =? "apply")%string then
      if (List.length middle =? 0)%nat then Err ErrUsageApply
      else match parseOptions middle [] with
           | Err e => Err e
           | Ok opts => Ok (command, source, output, opts)
           end
    else Err (ErrUnknownCommand command).
Proof.
  destruct (args_parts command middle source output) as [Hs [Ho Hm]].
  unfold parseArgs. rewrite Hs, Ho, Hm. rewrite args_length.
  cbn [nth].
  destruct (Nat.ltb_spec (List.length middle + 3) 2); [lia |].
  destruct (Nat.eqb_spec (List.length middle + 3) 2); [lia |].
  destruct (Nat.ltb_spec (List.length middle + 3) 4),
           (Nat.eqb_spec (List.length middle) 0); try lia; reflexivity.
Qed.

(** The errors of the option loop name one of the arguments it was given. *)
Lemma parseOptions_error (optArgs : list string) :
  forall acc e,
    parseOptions optArgs acc = Err e ->
    exists arg, In arg optArgs /\ e = argumentError arg.
Proof.
  induction optArgs as [| arg rest IH]; intros acc e H; cbn [parseOptions] in H.
  - discriminate.
  - unfold argumentError at 1.
    destruct (Strings.HasPrefix arg "--") eqn:Hpre.
    + destruct (Strings.SplitN2 arg) as [| name [| value [| ? ?]]] eqn:Hsplit.
      * injection H as <-. exists arg. unfold argumentError. rewrite Hpre.
        split; [left |]; reflexivity.
      * injection H as <-. exists arg. unfold argumentError. rewrite Hpre.
        split; [left |]; reflexivity.
      * apply IH in H. destruct H as [arg' [Hin ->]].
        exists arg'. split; [right; exact Hin | reflexivity].
      * injection H as <-. exists arg. unfold argumentError. rewrite Hpre.
        split; [left |]; reflexivity.
    + injection H as <-. exists arg. unfold argumentError. rewrite Hpre.
      split; [left |]; reflexivity.
Qed.

Lemma parseArgs_short (args : list string) :
  (List.length args < 2)%nat -> parseArgs args = Err ErrNumberOfArguments.
Proof.
  intros Hlen. unfold parseArgs.
  destruct (Nat.ltb_spec (List.length args) 2); [reflexivity | lia].
Qed.

(** A successful [parseArgs] has at least two arguments and returns the
    first one as the command, which is ["header"] or ["apply"]. *)
Lemma parseArgs_ok_command (args : list string) (command filename
    outputFilename : string) (opts : list Option) :
  parseArgs args = Ok (command, filename, outputFilename, opts) ->
  (2 <= List.length args)%nat /\ command = nth 0 args "" /\
  (command = "header" \/ command = "apply").
Proof.
  unfold parseArgs.
  destruct (Nat.ltb_spec (List.length args) 2) as [| H2]; [discriminate |].
  destruct (String.eqb_spec (nth 0 args "") "header") as [Hc | _].
  - destruct (negb (List.length args =? 2)%nat); [discriminate |].
    intros [= <- _ _ _]. repeat split; [exact H2 | left; exact Hc].
  - destruct (String.eqb_spec (nth 0 args "") "apply") as [Hc | _];
      [| discriminate].
    destruct (List.length args <? 4)%nat; [discriminate |].
    destruct (parseOptions _ []); [| discriminate].
    intros [= <- _ _ _]. repeat split; [exact H2 | right; exact Hc].
Qed.

(** X1: [parseArgs] returns the command ["header"] exactly for the two
    arguments ["header"] and a file name, and then with an empty output
    file name and no options. *)
Theorem parseArgs_header_iff (args : list string)
    (filename outputFilename : string) (opts : list Option) :
  parseArgs args = Ok ("header", filename, outputFilename, opts)
  <-> args = ["header"; filename] /\ outputFilename = "" /\ opts = [].
Proof.
  split.
  - unfold parseArgs.
    destruct (Nat.ltb_spec (List.length args) 2) as [| H2]; [discriminate |].
    destruct (String.eqb_spec (nth 0 args "") "header") as [Hc | Hc].
    + destruct (Nat.eqb_spec (List.length args) 2) as [Hlen |]; cbn [negb];
        [| discriminate].
      intros [= _ <- <- <-].
      destruct args as [| a0 [| a1 [| a2 rest]]]; try discriminate.
      cbn [nth] in *. rewrite Hc. repeat split.
    + destruct (nth 0 args "" =? "apply")%string eqn:Ha; [| discriminate].
      destruct (List.length args <? 4)%nat; [discriminate |].
      destruct (parseOptions _ []); [| discriminate].
      intros [= Habs _ _ _]. contradiction.
  - intros [-> [-> ->]]. reflexivity.
Qed.

Lemma parseArgs_header_iff_witness :
  ["header"; "in.bmp"] = ["header"; "in.bmp"] /\ "" = "" /\ @nil Option = [].
Proof.
  apply (proj1 (parseArgs_header_iff ["header"; "in.bmp"] "in.bmp" "" [])).
  reflexivity.
Defined.

(** X2: an [apply] command line made of at least one option [name=value],
    whose names start with ["--"] and have no ["="], followed by any two
    file names, parses to those file names and to the options in their
    order; the values are free (empty, or with ["="] in them). *)
Theorem parseArgs_apply_roundtrip (opts : list Option)
    (source output : string) :
  opts <> [] ->
  Forall (fun opt => optionName (Name opt)) opts ->
  parseArgs ("apply" :: map renderOption opts ++ [source; output])
  = Ok ("apply", source, output, opts).
Proof.
  intros Hne Hnames. rewrite parseArgs_three_unfold.
  change ("apply" =? "header")%string with false.
  change ("apply" =? "apply")%string with true. cbv iota.
  rewrite length_map.
  destruct (Nat.eqb_spec (List.length opts) 0) as [H0 |].
  - destruct opts; [contradiction | discriminate].
  - rewrite (parseOptions_render opts Hnames []). reflexivity.
Qed.

Lemma parseArgs_apply_roundtrip_witness :
  parseArgs ("apply"
             :: map renderOption [mkOption "--crop" "1-2-3-4";
                                  mkOption "--filter" ""]
             ++ ["--in=a"; "out.bmp"])
  = Ok ("apply", "--in=a", "out.bmp",
        [mkOption "--crop" "1-2-3-4"; mkOption "--filter" ""]).
Proof.
  apply parseArgs_apply_roundtrip.
  - discriminate.
  - repeat constructor.
Defined.

(** X3: whenever [parseArgs] returns the command ["apply"], the arguments
    were ["apply"], then the returned options written [name=value] in the
    returned order, then the two returned file names; there is at least one
    option, and each name starts with ["--"] and has no ["="]. *)
Theorem parseArgs_apply_inversion (args : list string)
    (filename outputFilename : string) (opts : list Option) :
  parseArgs args = Ok ("apply", filename, outputFilename, opts) ->
  args = "apply" :: map renderOption opts ++ [filename; outputFilename] /\
  opts <> [] /\
  Forall (fun opt => optionName (Name opt)) opts.
Proof.
  intros H.
  destruct (parseArgs_apply_options _ _ _ _ H) as [H4 Hlen].
  destruct (three_args_shape args) as [command [middle [s [o ->]]]]; [lia |].
  rewrite parseArgs_three_unfold in H.
  destruct (command =? "header")%string; [discriminate |].
  destruct (String.eqb_spec command "apply") as [-> |]; [| discriminate].
  destruct (List.length middle =? 0)%nat; [discriminate |].
  destruct (parseOptions middle []) as [found | e] eqn:Hloop; [| discriminate].
  injection H as -> -> ->.
  apply parseOptions_sound in Hloop.
  destruct Hloop as [opts' [Hopts [-> Hall]]]. cbn [app] in Hopts. subst opts'.
  repeat split; [| exact Hall].
  intros ->. rewrite args_length in H4. cbn [List.length map] in H4. lia.
Qed.

Lemma parseArgs_apply_inversion_witness :
  ["apply"; "--rotate=left"; "a.bmp"; "b.bmp"]
  = "apply" :: map renderOption [mkOption "--rotate" "left"]
    ++ ["a.bmp"; "b.bmp"] /\
  [mkOption "--rotate" "left"] <> [] /\
  Forall (fun opt => optionName (Name opt)) [mkOption "--rotate" "left"].
Proof.
  apply parseArgs_apply_inversion. reflexivity.
Defined.

(** X4: in an [apply] command line whose first options are well formed,
    the first argument that does not start with ["--"], or starts with it
    and has no ["="], decides the result: "unexpected argument" for the
    former, "invalid option format" for the latter, whatever follows. *)
Theorem parseArgs_apply_first_bad_argument (good : list Option)
    (bad : string) (rest : list string) (source output : string) :
  Forall (fun opt => optionName (Name opt)) good ->
  Strings.HasPrefix bad "--" = false \/ containsEq bad = false ->
  parseArgs ("apply" :: (map renderOption good ++ bad :: rest)
                        ++ [source; output])
  = Err (argumentError bad).
Proof.
  intros Hgood Hbad. rewrite parseArgs_three_unfold.
  change ("apply" =? "header")%string with false.
  change ("apply" =? "apply")%string with true. cbv iota.
  rewrite length_app. cbn [List.length].
  destruct (Nat.eqb_spec (List.length (map renderOption good)
                          + S (List.length rest)) 0); [lia |].
  rewrite (parseOptions_first_bad good bad rest Hgood Hbad []). reflexivity.
Qed.

Lemma parseArgs_apply_first_bad_argument_witness :
  parseArgs ("apply" :: (map renderOption [mkOption "--mirror" "vertical"]
                         ++ "--help" :: ["rotate=90"])
                        ++ ["in.bmp"; "out.bmp"])
  = Err (ErrOptionFormat "--help").
Proof.
  apply (parseArgs_apply_first_bad_argument
           [mkOption "--mirror" "vertical"] "--help" ["rotate=90"]).
  - repeat constructor.
  - right. reflexivity.
Defined.

(** X5: [parseArgs] succeeds only on at least two arguments, and the
    command it returns is the first argument and is ["header"] or
    ["apply"]: the caller never sees another command. *)
Theorem parseArgs_returns_known_command (args : list string)
    (command filename outputFilename : string) (opts : list Option) :
  parseArgs args = Ok (command, filename, outputFilename, opts) ->
  (2 <= List.length args)%nat /\ command = nth 0 args "" /\
  (command = "header" \/ command = "apply").
Proof.
  apply parseArgs_ok_command.
Qed.

Lemma parseArgs_returns_known_command_witness :
  (2 <= List.length ["header"; "in.bmp"])%nat /\
  "header" = nth 0 ["header"; "in.bmp"] "" /\
  ("header" = "header" \/ "header" = "apply").
Proof.
  apply (parseArgs_returns_known_command ["header"; "in.bmp"]
           "header" "in.bmp" "" []).
  reflexivity.
Defined.

(** X6: [parseArgs] reports an unknown command exactly when there are at
    least two arguments and the first is neither ["header"] nor ["apply"],
    and it reports that first argument; with fewer than two arguments the
    command is not looked at. *)
Theorem parseArgs_unknown_command_iff (args : list string) (command : string) :
  parseArgs args = Err (ErrUnknownCommand command)
  <-> (2 <= List.length args)%nat /\ nth 0 args "" = command /\
      command <> "header" /\ command <> "apply".
Proof.
  unfold parseArgs.
  destruct (Nat.ltb_spec (List.length args) 2) as [H2 | H2].
  - split; [discriminate | intros [Hlen _]; lia].
  - destruct (String.eqb_spec (nth 0 args "") "header") as [Hh | Hh].
    + split.
      * destruct (negb (List.length args =? 2)%nat); discriminate.
      * intros [_ [<- [Hn _]]]. contradiction.
    + destruct (String.eqb_spec (nth 0 args "") "apply") as [Ha | Ha].
      * split.
        -- destruct (List.length args <? 4)%nat; [discriminate |].
           destruct (parseOptions _ []) as [found | e] eqn:Hloop;
             [discriminate |].
           intros [= ->]. apply parseOptions_error in Hloop.
           destruct Hloop as [arg [_ Harg]]. unfold argumentError in Harg.
           destruct (Strings.HasPrefix arg "--"); discriminate.
        -- intros [_ [<- [_ Hn]]]. contradiction.
      * split.
        -- intros [= <-]. repeat split; assumption.
        -- intros [_ [<- _]]. reflexivity.
Qed.

Lemma parseArgs_unknown_command_iff_witness :
  parseArgs ["show"; "in.bmp"] = Err (ErrUnknownCommand "show").
Proof.
  apply (proj2 (parseArgs_unknown_command_iff ["show"; "in.bmp"] "show")).
  repeat split; [simpl; lia | discriminate | discriminate].
Defined.

(** X7: an [apply] command line is rejected as soon as one argument between
    the command and the two file names does not start with ["--"] or has no
    ["="] in it, wherever it stands; so are the [-h] and [--help] of the
    help text. *)
Theorem parseArgs_apply_rejects_malformed_argument
    (before after : list string) (bad source output : string) :
  Strings.HasPrefix bad "--" = false \/ containsEq bad = false ->
  is_err (parseArgs ("apply" :: (before ++ bad :: after) ++ [source; output]))
  = true.
Proof.
  intros Hbad. rewrite parseArgs_three_unfold.
  change ("apply" =? "header")%string with false.
  change ("apply" =? "apply")%string with true. cbv iota.
  destruct (List.length (before ++ bad :: after) =? 0)%nat; [reflexivity |].
  destruct (parseOptions (before ++ bad :: after) []) as [opts | e] eqn:Hloop;
    [| reflexivity].
  exfalso. apply parseOptions_sound in Hloop.
  destruct Hloop as [opts' [_ [Hargs Hall]]].
  assert (Hin : In bad (map renderOption opts')).
  { rewrite <- Hargs. apply in_or_app. right. left. reflexivity. }
  apply in_map_iff in Hin. destruct Hin as [opt [<- Hopt]].
  rewrite Forall_forall in Hall. destruct (Hall opt Hopt) as [Hpre _].
  destruct Hbad as [Hbad | Hbad].
  - unfold renderOption in Hbad.
    rewrite (HasPrefix_append _ _ Hpre) in Hbad. discriminate.
  - rewrite containsEq_render in Hbad. discriminate.
Qed.

Lemma parseArgs_apply_rejects_malformed_argument_witness :
  is_err (parseArgs ("apply" :: (["--mirror=vertical"] ++ "-h" :: [])
                              ++ ["in.bmp"; "out.bmp"]))
  = true.
Proof.
  apply (parseArgs_apply_rejects_malformed_argument
           ["--mirror=vertical"] [] "-h").
  left. reflexivity.
Defined.

(** ** Reading the headers: errors, effects and the bytes that count *)

Lemma to_N_inj (b c : byte) : Byte.to_N b = Byte.to_N c -> b = c.
Proof.
  intros H. pose proof (Byte.of_to_N b) as Hb. rewrite H, Byte.of_to_N in Hb.
  injection Hb as ->. reflexivity.
Qed.

Lemma leValue_inj (bs cs : list byte) :
  List.length bs = List.length cs ->
  Format.leValue bs = Format.leValue cs -> bs = cs.
Proof.
  revert cs. induction bs as [| b bs IH]; intros [| c cs] Hlen H;
    try discriminate; [reflexivity |].
  cbn [Format.leValue] in H.
  pose proof (Byte.to_N_bounded b). pose proof (Byte.to_N_bounded c).
  assert (Hbc : Byte.to_N b = Byte.to_N c) by lia.
  apply to_N_inj in Hbc. subst c. f_equal.
  apply IH; [injection Hlen as Hlen; exact Hlen | lia].
Qed.

Lemma field_range (offset size : nat) (bytes : list byte) :
  0 <= Format.field offset size bytes < 256 ^ Z.of_nat size.
Proof.
  unfold Format.field.
  pose proof (leValue_range (firstn size (skipn offset bytes))) as H.
  pose proof (firstn_le_length size (skipn offset bytes)) as Hlen.
  assert (256 ^ Z.of_nat (List.length (firstn size (skipn offset bytes)))
          <= 256 ^ Z.of_nat size) by (apply Z.pow_le_mono_r; lia).
  lia.
Qed.

Lemma signed32_range (v : Z) : - 2 ^ 31 <= Format.signed32 v < 2 ^ 31.
Proof.
  unfold Format.signed32.
  pose proof (Z.mod_pos_bound (v + 2 ^ 31) (2 ^ 32)). lia.
Qed.

Lemma signed32_inj (u v : Z) :
  0 <= u < 2 ^ 32 -> 0 <= v < 2 ^ 32 ->
  Format.signed32 u = Format.signed32 v -> u = v.
Proof.
  intros Hu Hv. rewrite <- !int32_signed32 by assumption.
  unfold binary.int32.
  destruct (Z.ltb_spec u (2 ^ 31)), (Z.ltb_spec v (2 ^ 31)); lia.
Qed.

Lemma signed_leValue_inj (b0 b1 b2 b3 c0 c1 c2 c3 : byte) :
  Format.signed32 (Format.leValue [b0; b1; b2; b3])
  = Format.signed32 (Format.leValue [c0; c1; c2; c3]) ->
  [b0; b1; b2; b3] = [c0; c1; c2; c3].
Proof.
  intros H. apply leValue_inj; [reflexivity |].
  pose proof (leValue_range [b0; b1; b2; b3]) as Hb.
  pose proof (leValue_range [c0; c1; c2; c3]) as Hc.
  change (256 ^ Z.of_nat (List.length [b0; b1; b2; b3])) with (2 ^ 32) in Hb.
  change (256 ^ Z.of_nat (List.length [c0; c1; c2; c3])) with (2 ^ 32) in Hc.
  exact (signed32_inj _ _ Hb Hc H).
Qed.

(** An accepted file has at least 54 bytes and starts with the magic. *)
Lemma readHeaders_ok (w : World) (filename : string)
    (bmp : BMPHeader) (dib : DIBHeader) :
  snd (readHeaders w filename) = Ok (bmp, dib) ->
  exists bytes,
    files w filename = Some bytes /\ (54 <= List.length bytes)%nat /\
    firstn 2 bytes = Format.magic /\
    bmp = Format.fileHeaderAt bytes /\ dib = Format.infoHeaderAt bytes.
Proof.
  rewrite readHeaders_result.
  destruct (files w filename) as [bytes |]; [| discriminate].
  destruct (Nat.ltb_spec (List.length bytes) 14); [discriminate |].
  destruct (isBM (nth 0 bytes x00, nth 1 bytes x00)) eqn:HBM; cbn [negb];
    [| discriminate].
  destruct (Nat.ltb_spec (List.length bytes) 54); [discriminate |].
  intros [= <- <-]. exists bytes. repeat split; try assumption.
  apply isBM_magic. exact HBM.
Qed.

(** X8: the checks of [readHeaders] come in a fixed order, each with its
    own error: the file cannot be opened; fewer than 14 bytes (EOF for an
    empty file, unexpected EOF otherwise); 14 bytes or more that do not
    start with "BM", even when the file is too short for the second header;
    "BM" but fewer than 54 bytes (EOF for exactly 14 bytes). *)
Theorem readHeaders_error_order (w : World) (filename : string) :
  (files w filename = None ->
   snd (readHeaders w filename) = Err ErrOpeningFile) /\
  (forall bytes,
     files w filename = Some bytes -> (List.length bytes < 14)%nat ->
     snd (readHeaders w filename)
     = Err (ErrReadingBMPHeader
              (if (List.length bytes =? 0)%nat then EOF else ErrUnexpectedEOF))) /\
  (forall bytes,
     files w filename = Some bytes -> (14 <= List.length bytes)%nat ->
     firstn 2 bytes <> Format.magic ->
     snd (readHeaders w filename) = Err ErrNotValidBMP) /\
  (forall bytes,
     files w filename = Some bytes ->
     (14 <= List.length bytes < 54)%nat ->
     firstn 2 bytes = Format.magic ->
     snd (readHeaders w filename)
     = Err (ErrReadingDIBHeader
              (if (List.length bytes =? 14)%nat then EOF else ErrUnexpectedEOF))).
Proof.
  rewrite readHeaders_result. repeat split.
  - intros ->. reflexivity.
  - intros bytes -> Hlen.
    destruct (Nat.ltb_spec (List.length bytes) 14); [reflexivity | lia].
  - intros bytes -> Hlen Hmagic.
    destruct (Nat.ltb_spec (List.length bytes) 14); [lia |].
    destruct (isBM (nth 0 bytes x00, nth 1 bytes x00)) eqn:HBM; [| reflexivity].
    apply isBM_magic in HBM. contradiction.
  - intros bytes -> Hlen Hmagic.
    destruct (Nat.ltb_spec (List.length bytes) 14); [lia |].
    apply isBM_magic in Hmagic. rewrite Hmagic. cbn [negb].
    destruct (Nat.ltb_spec (List.length bytes) 54); [reflexivity | lia].
Qed.

Lemma readHeaders_error_order_witness :
  snd (readHeaders sampleWorld "missing.bmp") = Err ErrOpeningFile /\
  snd (readHeaders (withFile sampleWorld "empty" []) "empty")
  = Err (ErrReadingBMPHeader EOF) /\
  snd (readHeaders (withFile sampleWorld "text" (x48 :: x69 :: skipn 40 sampleBMP))
         "text")
  = Err ErrNotValidBMP /\
  snd (readHeaders (withFile sampleWorld "cut" (firstn 14 sampleBMP)) "cut")
  = Err (ErrReadingDIBHeader EOF).
Proof.
  split; [| split; [| split]].
  - apply (proj1 (readHeaders_error_order sampleWorld "missing.bmp")).
    reflexivity.
  - apply (proj1 (proj2 (readHeaders_error_order
                           (withFile sampleWorld "empty" []) "empty")) []).
    + reflexivity.
    + simpl. lia.
  - apply (proj1 (proj2 (proj2 (readHeaders_error_order
             (withFile sampleWorld "text" (x48 :: x69 :: skipn 40 sampleBMP))
             "text")))
             (x48 :: x69 :: skipn 40 sampleBMP)).
    + reflexivity.
    + simpl. lia.
    + discriminate.
  - apply (proj2 (proj2 (proj2 (readHeaders_error_order
             (withFile sampleWorld "cut" (firstn 14 sampleBMP)) "cut")))
             (firstn 14 sampleBMP)).
    + reflexivity.
    + simpl. lia.
    + reflexivity.
Defined.

(** X9: whatever it returns, [readHeaders] prints its one "Opening file"
    line to the standard output and does nothing else: the files and the
    error stream are as before. *)
Theorem readHeaders_effects (w : World) (filename : string) :
  fst (readHeaders w filename)
  = mkWorld (files w) (stdout w ++ [PrintOpening filename]) (stderr w).
Proof.
  rewrite readHeaders_world. reflexivity.
Qed.

(** X10: the result of [readHeaders] depends on the first 54 bytes of the
    file only: not on its name, not on the rest of the world, not on the
    pixel data that follows. *)
Theorem readHeaders_first_54_bytes (w1 w2 : World) (name1 name2 : string)
    (bytes1 bytes2 : list byte) :
  files w1 name1 = Some bytes1 ->
  files w2 name2 = Some bytes2 ->
  firstn 54 bytes1 = firstn 54 bytes2 ->
  snd (readHeaders w1 name1) = snd (readHeaders w2 name2).
Proof.
  intros H1 H2 Heq. rewrite !readHeaders_result, H1, H2.
  destruct (Nat.lt_ge_cases (List.length bytes1) 54) as [Hlt | Hge1].
  - assert (Hb : bytes1 = bytes2).
    { rewrite (firstn_all2 bytes1) in Heq by lia.
      assert (Hlen : List.length (firstn 54 bytes2) = List.length bytes1)
        by (rewrite <- Heq; reflexivity).
      rewrite length_firstn in Hlen.
      rewrite (firstn_all2 bytes2) in Heq by lia. exact Heq. }
    rewrite Hb. reflexivity.
  - assert (Hge2 : (54 <= List.length bytes2)%nat).
    { assert (Hlen : List.length (firstn 54 bytes2) = 54%nat)
        by (rewrite <- Heq; apply firstn_length_le; exact Hge1).
      rewrite length_firstn in Hlen. lia. }
    clear H1 H2. uncons bytes1 Hge1. uncons bytes2 Hge2.
    cbn [firstn] in Heq. injection Heq as Heq. subst. reflexivity.
Qed.

Lemma readHeaders_first_54_bytes_witness :
  snd (readHeaders sampleWorld "in.bmp")
  = snd (readHeaders (withFile sampleWorld "copy" (firstn 54 sampleBMP ++ [x01]))
           "copy").
Proof.
  apply (readHeaders_first_54_bytes _ _ _ _ sampleBMP
           (firstn 54 sampleBMP ++ [x01])); reflexivity.
Defined.

(** X11: the headers [readHeaders] returns carry the magic "BM" and every
    field lies in the range of its Go type: [uint32] and [uint16] fields
    are non-negative and below 2^32 and 2^16, the [int32] fields (width,
    height, the two resolutions) lie between -2^31 and 2^31 - 1. *)
Theorem readHeaders_field_ranges (w : World) (filename : string)
    (bmp : BMPHeader) (dib : DIBHeader) :
  snd (readHeaders w filename) = Ok (bmp, dib) ->
  FileType bmp = (x42, x4d) /\
  (0 <= FileSize bmp < 2 ^ 32 /\ 0 <= Reserved bmp < 2 ^ 32 /\
   0 <= OffsetData bmp < 2 ^ 32) /\
  (0 <= DibHeaderSize dib < 2 ^ 32 /\
   - 2 ^ 31 <= Width dib < 2 ^ 31 /\ - 2 ^ 31 <= Height dib < 2 ^ 31 /\
   0 <= Planes dib < 2 ^ 16 /\ 0 <= BitCount dib < 2 ^ 16 /\
   0 <= Compression dib < 2 ^ 32 /\ 0 <= ImageSize dib < 2 ^ 32 /\
   - 2 ^ 31 <= XPixelsPerM dib < 2 ^ 31 /\
   - 2 ^ 31 <= YPixelsPerM dib < 2 ^ 31 /\
   0 <= ColorsUsed dib < 2 ^ 32 /\ 0 <= ColorsImp dib < 2 ^ 32).
Proof.
  intros H. apply readHeaders_ok in H.
  destruct H as [bytes [_ [Hlen [Hmagic [-> ->]]]]].
  split; [| split].
  - destruct bytes as [| b0 [| b1 rest]]; try discriminate.
    injection Hmagic as -> ->. reflexivity.
  - cbn [FileSize Reserved OffsetData Format.fileHeaderAt].
    repeat split; apply (field_range _ 4).
  - cbn [DibHeaderSize Width Height Planes BitCount Compression ImageSize
           XPixelsPerM YPixelsPerM ColorsUsed ColorsImp Format.infoHeaderAt].
    repeat split;
      first [ apply (field_range _ 4) | apply (field_range _ 2)
            | apply signed32_range ].
Qed.

Lemma readHeaders_field_ranges_witness :
  FileType sampleBMPHeader = (x42, x4d) /\
  (0 <= FileSize sampleBMPHeader < 2 ^ 32 /\
   0 <= Reserved sampleBMPHeader < 2 ^ 32 /\
   0 <= OffsetData sampleBMPHeader < 2 ^ 32) /\
  (0 <= DibHeaderSize sampleDIBHeader < 2 ^ 32 /\
   - 2 ^ 31 <= Width sampleDIBHeader < 2 ^ 31 /\
   - 2 ^ 31 <= Height sampleDIBHeader < 2 ^ 31 /\
   0 <= Planes sampleDIBHeader < 2 ^ 16 /\
   0 <= BitCount sampleDIBHeader < 2 ^ 16 /\
   0 <= Compression sampleDIBHeader < 2 ^ 32 /\
   0 <= ImageSize sampleDIBHeader < 2 ^ 32 /\
   - 2 ^ 31 <= XPixelsPerM sampleDIBHeader < 2 ^ 31 /\
   - 2 ^ 31 <= YPixelsPerM sampleDIBHeader < 2 ^ 31 /\
   0 <= ColorsUsed sampleDIBHeader < 2 ^ 32 /\
   0 <= ColorsImp sampleDIBHeader < 2 ^ 32).
Proof.
  apply (readHeaders_field_ranges sampleWorld "in.bmp"). reflexivity.
Defined.

(** X12: the two headers keep all of the first 54 bytes: two files from
    which [readHeaders] returns the same headers agree on their first 54
    bytes. *)
Theorem readHeaders_injective (w1 w2 : World) (name1 name2 : string)
    (bytes1 bytes2 : list byte) (bmp : BMPHeader) (dib : DIBHeader) :
  files w1 name1 = Some bytes1 ->
  files w2 name2 = Some bytes2 ->
  snd (readHeaders w1 name1) = Ok (bmp, dib) ->
  snd (readHeaders w2 name2) = Ok (bmp, dib) ->
  firstn 54 bytes1 = firstn 54 bytes2.
Proof.
  intros H1 H2 R1 R2.
  apply readHeaders_ok in R1, R2.
  destruct R1 as [b1 [F1 [Hlen1 [_ [Hbmp1 Hdib1]]]]].
  destruct R2 as [b2 [F2 [Hlen2 [_ [Hbmp2 Hdib2]]]]].
  rewrite H1 in F1. rewrite H2 in F2.
  injection F1 as <-. injection F2 as <-.
  rewrite Hbmp1 in Hbmp2. rewrite Hdib1 in Hdib2. clear Hbmp1 Hdib1 H1 H2.
  uncons bytes1 Hlen1. uncons bytes2 Hlen2.
  unfold Format.fileHeaderAt, Format.infoHeaderAt, Format.field in Hbmp2, Hdib2.
  cbn [firstn skipn nth] in Hbmp2, Hdib2.
  pose proof (f_equal FileType Hbmp2) as Htype.
  pose proof (f_equal FileSize Hbmp2) as Hsize.
  pose proof (f_equal Reserved Hbmp2) as Hres.
  pose proof (f_equal OffsetData Hbmp2) as Hoff.
  pose proof (f_equal DibHeaderSize Hdib2) as Hd0.
  pose proof (f_equal Width Hdib2) as Hd1.
  pose proof (f_equal Height Hdib2) as Hd2.
  pose proof (f_equal Planes Hdib2) as Hd3.
  pose proof (f_equal BitCount Hdib2) as Hd4.
  pose proof (f_equal Compression Hdib2) as Hd5.
  pose proof (f_equal ImageSize Hdib2) as Hd6.
  pose proof (f_equal XPixelsPerM Hdib2) as Hd7.
  pose proof (f_equal YPixelsPerM Hdib2) as Hd8.
  pose proof (f_equal ColorsUsed Hdib2) as Hd9.
  pose proof (f_equal ColorsImp Hdib2) as Hd10.
  clear Hbmp2 Hdib2.
  cbn [FileType FileSize Reserved OffsetData DibHeaderSize Width Height
         Planes BitCount Compression ImageSize XPixelsPerM YPixelsPerM
         ColorsUsed ColorsImp] in *.
  apply leValue_inj in Hsize, Hres, Hoff, Hd0, Hd3, Hd4, Hd5, Hd6, Hd9, Hd10;
    try reflexivity.
  apply signed_leValue_inj in Hd1, Hd2, Hd7, Hd8.
  cbn [firstn]. congruence.
Qed.

Lemma readHeaders_injective_witness :
  firstn 54 sampleBMP = firstn 54 (firstn 54 sampleBMP ++ [x07; x07]).
Proof.
  apply (readHeaders_injective sampleWorld
           (withFile sampleWorld "copy" (firstn 54 sampleBMP ++ [x07; x07]))
           "in.bmp" "copy" sampleBMP (firstn 54 sampleBMP ++ [x07; x07])
           sampleBMPHeader sampleDIBHeader); reflexivity.
Defined.

(** ** The option loop of [main], for any four transforms *)

Section PipelineProperties.

Variable mirror : list Pixel -> Z -> Z -> string -> list Pixel.
Variable filter : list Pixel -> Z -> Z -> string -> list Pixel.
Variable rotate : list Pixel -> Z -> Z -> Z -> list Pixel.
Variable crop : list Pixel -> Z -> Z -> Z -> Z -> Z -> Z -> list Pixel.
Variable dibHeader : DIBHeader.

Lemma processOptionWith_unknown (pixels : list Pixel) (opt : Option) :
  knownOptionName (Name opt) = false ->
  processOptionWith mirror filter rotate crop dibHeader pixels opt = pixels.
Proof.
  unfold knownOptionName, processOptionWith. intros H.
  apply orb_false_iff in H as [H Hcrop].
  apply orb_false_iff in H as [H Hrotate].
  apply orb_false_iff in H as [Hmirror Hfilter].
  rewrite Hmirror, Hfilter, Hrotate, Hcrop. reflexivity.
Qed.


(** X20: options whose name is not one of [--mirror], [--filter],
    [--rotate], [--crop] (compared exactly, case included) are passed over
    without any effect and without an error, wherever they stand in the
    list: removing them all leaves the result unchanged. *)
Theorem processOptionsWith_skips_unknown_names (opts : list Option) :
  forall pixels,
    processOptionsWith mirror filter rotate crop dibHeader pixels opts
    = processOptionsWith mirror filter rotate crop dibHeader pixels
        (List.filter (fun opt => knownOptionName (Name opt)) opts).
Proof.
  unfold processOptionsWith.
  induction opts as [| opt opts IH]; intros pixels; cbn [fold_left List.filter].
  - reflexivity.
  - destruct (knownOptionName (Name opt)) eqn:Hknown; cbn [fold_left].
    + apply IH.
    + rewrite (processOptionWith_unknown pixels opt Hknown). apply IH.
Qed.

End PipelineProperties.

(** ** Whole runs of [main] *)

Lemma readHeaders_accepted (w : World) (filename : string) (bytes : list byte) :
  files w filename = Some bytes ->
  (54 <= List.length bytes)%nat ->
  firstn 2 bytes = Format.magic ->
  snd (readHeaders w filename)
  = Ok (Format.fileHeaderAt bytes, Format.infoHeaderAt bytes).
Proof.
  intros Hfile Hlen Hmagic. rewrite readHeaders_result, Hfile.
  destruct (Nat.ltb_spec (List.length bytes) 14); [lia |].
  apply isBM_magic in Hmagic. rewrite Hmagic. cbn [negb].
  destruct (Nat.ltb_spec (List.length bytes) 54); [lia | reflexivity].
Qed.

(** What a run comes to, the pixel steps and the unreachable default case
    of the [switch] taken out. *)
Lemma main_outcome (osArgs : list string) (w : World) :
  main osArgs w =
  if (List.length osArgs <? 2)%nat then (toStdout w PrintGeneralHelp, 1)
  else
    match parseArgs (skipn 1 osArgs) with
    | Err e => (toStdout w (PrintError e), 1)
    | Ok (command, filename, _, _) =>
        let w1 := toStdout w (PrintOpening filename) in
        match snd (readHeaders w filename) with
        | Err e => (toStderr w1 (PrintError e), 1)
        | Ok (bmp, dib) =>
            if (command =? "header")%string
            then (toStdout w1 (PrintHeader bmp dib), 0)
            else (w1, 0)
        end
    end.
Proof.
  unfold main. destruct (List.length osArgs <? 2)%nat; [reflexivity |].
  destruct (parseArgs (skipn 1 osArgs))
    as [[[[command filename] outputFilename] opts] | e] eqn:Hparse;
    [| reflexivity].
  pose proof (readHeaders_world w filename) as Hw.
  destruct (readHeaders w filename) as [w' r]. cbn [fst snd] in *. subst w'.
  destruct r as [[bmp dib] | e]; [| reflexivity].
  apply parseArgs_ok_command in Hparse.
  destruct Hparse as [_ [_ [-> | ->]]]; reflexivity.
Qed.

(** X13: no run of the program creates, changes or removes a file,
    whatever the arguments: after [main] every file name opens to what it
    opened to before (the output file of [apply] included). *)
Theorem main_never_touches_files (osArgs : list string) (w : World) :
  files (fst (main osArgs w)) = files w.
Proof.
  rewrite main_outcome.
  destruct (List.length osArgs <? 2)%nat; [reflexivity |].
  destruct (parseArgs (skipn 1 osArgs))
    as [[[[command filename] outputFilename] opts] | e]; [| reflexivity].
  cbv zeta.
  destruct (snd (readHeaders w filename)) as [[bmp dib] | e]; [| reflexivity].
  destruct (command =? "header")%string; reflexivity.
Qed.

(** X14: the exit status is 0 or 1, and it is 0 exactly when the arguments
    after the program name parse and the headers of the file they name can
    be read; for [apply] nothing else is required. *)
Theorem main_exit_status (osArgs : list string) (w : World) :
  (snd (main osArgs w) = 0 \/ snd (main osArgs w) = 1) /\
  (snd (main osArgs w) = 0 <->
   exists command filename outputFilename opts,
     parseArgs (skipn 1 osArgs)
     = Ok (command, filename, outputFilename, opts) /\
     is_err (snd (readHeaders w filename)) = false).
Proof.
  rewrite main_outcome.
  destruct (Nat.ltb_spec (List.length osArgs) 2) as [Hlt | Hge].
  - cbn [snd]. split; [right; reflexivity |].
    split; [discriminate |].
    intros [command [filename [outputFilename [opts [Hparse _]]]]].
    rewrite parseArgs_short in Hparse; [discriminate |].
    rewrite length_skipn. lia.
  - destruct (parseArgs (skipn 1 osArgs))
      as [[[[command filename] outputFilename] opts] | e].
    + cbv zeta.
      destruct (snd (readHeaders w filename)) as [[bmp dib] | e] eqn:Hread.
      * assert (Hzero : snd (if (command =? "header")%string
                             then (toStdout (toStdout w (PrintOpening filename))
                                     (PrintHeader bmp dib), 0)
                             else (toStdout w (PrintOpening filename), 0)) = 0)
          by (destruct (command =? "header")%string; reflexivity).
        rewrite Hzero. split; [left; reflexivity |].
        split; [intros _ | reflexivity].
        exists command, filename, outputFilename, opts.
        rewrite Hread. split; reflexivity.
      * cbn [snd]. split; [right; reflexivity |].
        split; [discriminate |].
        intros [c [f [o [os [[= _ <- _ _] Herr]]]]].
        rewrite Hread in Herr. discriminate.
    + cbn [snd]. split; [right; reflexivity |].
      split; [discriminate |].
      intros [c [f [o [os [Habs _]]]]]. discriminate.
Qed.

Lemma main_exit_status_witness :
  snd (main ["bitmap"; "apply"; "--blur=3"; "in.bmp"; "out.bmp"] sampleWorld)
  = 0.
Proof.
  apply (proj2 (proj2 (main_exit_status
                         ["bitmap"; "apply"; "--blur=3"; "in.bmp"; "out.bmp"]
                         sampleWorld))).
  exists "apply", "in.bmp", "out.bmp", [mkOption "--blur" "3"].
  split; reflexivity.
Defined.

(** X15: [header] on a file of at least 54 bytes that starts with "BM"
    prints the "Opening file" line and then the header values found at the
    offsets of the format table, nothing to the error stream, and exits
    with 0, whatever the program name. *)
Theorem main_header_prints_the_headers (program filename : string)
    (w : World) (bytes : list byte) :
  files w filename = Some bytes ->
  (54 <= List.length bytes)%nat ->
  firstn 2 bytes = Format.magic ->
  main [program; "header"; filename] w
  = (toStdout (toStdout w (PrintOpening filename))
       (PrintHeader (Format.fileHeaderAt bytes) (Format.infoHeaderAt bytes)),
     0).
Proof.
  intros Hfile Hlen Hmagic. rewrite main_outcome.
  change (List.length [program; "header"; filename] <? 2)%nat with false.
  change (skipn 1 [program; "header"; filename]) with ["header"; filename].
  change (parseArgs ["header"; filename])
    with (Ok ("header", filename, "", @nil Option)).
  cbv beta iota zeta.
  rewrite (readHeaders_accepted w filename bytes Hfile Hlen Hmagic).
  reflexivity.
Qed.

Lemma main_header_prints_the_headers_witness :
  main ["bitmap"; "header"; "in.bmp"] sampleWorld
  = (toStdout (toStdout sampleWorld (PrintOpening "in.bmp"))
       (PrintHeader (Format.fileHeaderAt sampleBMP)
          (Format.infoHeaderAt sampleBMP)),
     0).
Proof.
  apply main_header_prints_the_headers.
  - reflexivity.
  - simpl. lia.
  - reflexivity.
Defined.

(** X16: [apply] with at least one option of the form [--name=value] on a
    source file of at least 54 bytes that starts with "BM" exits with 0
    after printing the "Opening file" line only, whatever the option names
    and values are (known or not) and whatever the output file name is. *)
Theorem main_apply_accepts_any_options (program : string)
    (opts : list Option) (source output : string)
    (w : World) (bytes : list byte) :
  opts <> [] ->
  Forall (fun opt => optionName (Name opt)) opts ->
  files w source = Some bytes ->
  (54 <= List.length bytes)%nat ->
  firstn 2 bytes = Format.magic ->
  main (program :: "apply" :: map renderOption opts ++ [source; output]) w
  = (toStdout w (PrintOpening source), 0).
Proof.
  intros Hne Hnames Hfile Hlen Hmagic. rewrite main_outcome.
  cbn [skipn].
  rewrite (parseArgs_three_unfold "apply" (map renderOption opts) source output).
  change ("apply" =? "header")%string with false.
  change ("apply" =? "apply")%string with true. cbv iota.
  rewrite length_map.
  destruct (Nat.eqb_spec (List.length opts) 0) as [H0 |];
    [destruct opts; [contradiction | discriminate] |].
  rewrite (parseOptions_render opts Hnames []). cbn [app]. cbv zeta.
  rewrite (readHeaders_accepted w source bytes Hfile Hlen Hmagic).
  change ("apply" =? "header")%string with false. cbv iota.
  destruct (Nat.ltb_spec
              (List.length (program :: "apply"
                            :: map renderOption opts ++ [source; output])) 2)
    as [Hshort |]; [| reflexivity].
  cbn [List.length] in Hshort. lia.
Qed.

Lemma main_apply_accepts_any_options_witness :
  main ("bitmap" :: "apply"
        :: map renderOption [mkOption "--scale" "2"; mkOption "--rotate" "45"]
        ++ ["in.bmp"; "out.bmp"]) sampleWorld
  = (toStdout sampleWorld (PrintOpening "in.bmp"), 0).
Proof.
  apply (main_apply_accepts_any_options "bitmap"
           [mkOption "--scale" "2"; mkOption "--rotate" "45"]
           "in.bmp" "out.bmp" sampleWorld sampleBMP).
  - discriminate.
  - repeat constructor.
  - reflexivity.
  - simpl. lia.
  - reflexivity.
Defined.

(** X17: the general help is what a run adds to the standard output
    exactly when the program is started without any argument; a wrong
    command or wrong arguments give an error line instead. *)
Theorem main_general_help_iff (osArgs : list string) (w : World) :
  stdout (fst (main osArgs w)) = stdout w ++ [PrintGeneralHelp]
  <-> (List.length osArgs < 2)%nat.
Proof.
  rewrite main_outcome.
  destruct (Nat.ltb_spec (List.length osArgs) 2) as [Hlt | Hge].
  - split; [intros _; exact Hlt | reflexivity].
  - split; [| lia]. intros H. exfalso.
    destruct (parseArgs (skipn 1 osArgs))
      as [[[[command filename] outputFilename] opts] | e].
    + cbv zeta in H.
      destruct (snd (readHeaders w filename)) as [[bmp dib] | e].
      * destruct (command =? "header")%string; cbn [fst stdout toStdout] in H.
        -- rewrite <- app_assoc in H. apply app_inv_head in H. discriminate.
        -- apply app_inv_head in H. discriminate.
      * cbn [fst stdout toStdout toStderr] in H.
        apply app_inv_head in H. discriminate.
    + cbn [fst stdout toStdout] in H. apply app_inv_head in H. discriminate.
Qed.

Lemma main_general_help_iff_witness :
  stdout (fst (main ["bitmap"] sampleWorld))
  = stdout sampleWorld ++ [PrintGeneralHelp].
Proof.
  apply (proj2 (main_general_help_iff ["bitmap"] sampleWorld)).
  simpl. lia.
Defined.

(** X18: a failing run reports its error once and exits with 1: an error
    of [parseArgs] goes to the standard output and nothing is opened; an
    error of [readHeaders] goes to the error stream, after the "Opening
    file" line on the standard output. *)
Theorem main_failure_report (osArgs : list string) (w : World) :
  (forall e,
     (2 <= List.length osArgs)%nat ->
     parseArgs (skipn 1 osArgs) = Err e ->
     main osArgs w = (toStdout w (PrintError e), 1)) /\
  (forall command filename outputFilename opts e,
     parseArgs (skipn 1 osArgs)
     = Ok (command, filename, outputFilename, opts) ->
     snd (readHeaders w filename) = Err e ->
     main osArgs w
     = (toStderr (toStdout w (PrintOpening filename)) (PrintError e), 1)).
Proof.
  split.
  - intros e Hlen Hparse. rewrite main_outcome, Hparse.
    destruct (Nat.ltb_spec (List.length osArgs) 2); [lia | reflexivity].
  - intros command filename outputFilename opts e Hparse Hread.
    rewrite main_outcome, Hparse. cbv zeta. rewrite Hread.
    destruct (Nat.ltb_spec (List.length osArgs) 2) as [Hlt |]; [| reflexivity].
    apply parseArgs_ok_command in Hparse. destruct Hparse as [Hlen _].
    rewrite length_skipn in Hlen. lia.
Qed.

Lemma main_failure_report_witness :
  main ["bitmap"; "resize"; "in.bmp"] sampleWorld
  = (toStdout sampleWorld (PrintError (ErrUnknownCommand "resize")), 1) /\
  main ["bitmap"; "header"; "missing.bmp"] sampleWorld
  = (toStderr (toStdout sampleWorld (PrintOpening "missing.bmp"))
       (PrintError ErrOpeningFile), 1).
Proof.
  split.
  - apply (proj1 (main_failure_report ["bitmap"; "resize"; "in.bmp"]
                    sampleWorld)).
    + simpl. lia.
    + reflexivity.
  - apply (proj2 (main_failure_report ["bitmap"; "header"; "missing.bmp"]
                    sampleWorld) "header" "missing.bmp" "" []).
    + reflexivity.
    + reflexivity.
Defined.

(** ** The text of the [header] command *)

Lemma append_inv_head (p a b : string) :
  (p ++ a)%string = (p ++ b)%string -> a = b.
Proof.
  induction p as [| c p IH]; cbn [String.append]; intros H.
  - exact H.
  - injection H as H. exact (IH H).
Qed.

Lemma fmt_d_inj (a b : Z) : fmt.d a = fmt.d b -> a = b.
Proof.
  assert (Hnonnil : forall z, Z.to_int z <> Decimal.Pos Decimal.Nil /\
                              Z.to_int z <> Decimal.Neg Decimal.Nil).
  { intros [| p | p]; cbn [Z.to_int]; split; intros [= H];
      exact (Unsigned.to_uint_nonnil p H). }
  unfold fmt.d. intros H.
  apply (f_equal NilZero.int_of_string) in H.
  rewrite !NilZero.isi in H by apply Hnonnil.
  injection H as H. exact (DecimalZ.to_int_inj _ _ H).
Qed.

Lemma fmt_s2_inj (t u : byte * byte) : fmt.s2 t = fmt.s2 u -> t = u.
Proof.
  destruct t as [t0 t1], u as [u0 u1]. unfold fmt.s2. cbn [fst snd].
  intros [= H0 H1].
  apply (f_equal byte_of_ascii) in H0, H1.
  rewrite !byte_of_ascii_of_byte in H0, H1. congruence.
Qed.

Example printHeaderLines_sample :
  printHeaderLines sampleBMPHeader sampleDIBHeader
  = ["BMP Header:"; "- FileType BM"; "- FileSizeInBytes 58"; "- HeaderSize 54";
     "DIB Header:"; "- DibHeaderSize 40"; "- WidthInPixels 1";
     "- HeightInPixels 1"; "- PixelSizeInBits 24"; "- ImageSizeInBytes 4"]%string.
Proof. reflexivity. Qed.

Example fmt_d_negative : fmt.d (-2) = "-2"%string /\ fmt.d 0 = "0"%string.
Proof. split; reflexivity. Qed.

(** X21: the text of [printHeader] shows eight fields and no more: two
    pairs of headers print the same ten lines exactly when they agree on
    the file type, the file size, the data offset, the info-header size,
    the width, the height, the bit count and the image size; the reserved
    field, the planes, the compression, the resolutions and the colour
    counts never show. *)
Theorem printHeaderLines_eq_iff (bmp1 bmp2 : BMPHeader) (dib1 dib2 : DIBHeader) :
  printHeaderLines bmp1 dib1 = printHeaderLines bmp2 dib2
  <-> FileType bmp1 = FileType bmp2 /\ FileSize bmp1 = FileSize bmp2 /\
      OffsetData bmp1 = OffsetData bmp2 /\
      DibHeaderSize dib1 = DibHeaderSize dib2 /\
      Width dib1 = Width dib2 /\ Height dib1 = Height dib2 /\
      BitCount dib1 = BitCount dib2 /\ ImageSize dib1 = ImageSize dib2.
Proof.
  unfold printHeaderLines. split.
  - intros H.
    pose proof (f_equal (fun l => nth 1 l EmptyString) H) as Htype.
    pose proof (f_equal (fun l => nth 2 l EmptyString) H) as Hsize.
    pose proof (f_equal (fun l => nth 3 l EmptyString) H) as Hoff.
    pose proof (f_equal (fun l => nth 5 l EmptyString) H) as Hdib.
    pose proof (f_equal (fun l => nth 6 l EmptyString) H) as Hwidth.
    pose proof (f_equal (fun l => nth 7 l EmptyString) H) as Hheight.
    pose proof (f_equal (fun l => nth 8 l EmptyString) H) as Hbits.
    pose proof (f_equal (fun l => nth 9 l EmptyString) H) as Himage.
    clear H. cbn [nth] in *.
    apply append_inv_head in Htype, Hsize, Hoff, Hdib, Hwidth, Hheight,
      Hbits, Himage.
    apply fmt_s2_inj in Htype.
    apply fmt_d_inj in Hsize, Hoff, Hdib, Hwidth, Hheight, Hbits, Himage.
    repeat split; assumption.
  - intros [-> [-> [-> [-> [-> [-> [-> ->]]]]]]]. reflexivity.
Qed.

Lemma printHeaderLines_eq_iff_witness :
  printHeaderLines sampleBMPHeader sampleDIBHeader
  = printHeaderLines (mkBMPHeader (x42, x4d) 58 7 54)
      (mkDIBHeader 40 1 1 3 24 1 4 0 0 16 16).
Proof.
  apply (proj2 (printHeaderLines_eq_iff sampleBMPHeader
                  (mkBMPHeader (x42, x4d) 58 7 54) sampleDIBHeader
                  (mkDIBHeader 40 1 1 3 24 1 4 0 0 16 16))).
  repeat split.
Defined.

(** X22: for the headers [readHeaders] returns, the file-type line of
    [printHeader] always reads "- FileType BM". *)
Theorem printHeaderLines_file_type (w : World) (filename : string)
    (bmp : BMPHeader) (dib : DIBHeader) :
  snd (readHeaders w filename) = Ok (bmp, dib) ->
  nth 1 (printHeaderLines bmp dib) ""%string = "- FileType BM"%string.
Proof.
  intros H. apply readHeaders_ok in H.
  destruct H as [bytes [_ [_ [Hmagic [-> _]]]]].
  destruct bytes as [| b0 [| b1 rest]]; try discriminate.
  injection Hmagic as -> ->. reflexivity.
Qed.

Lemma printHeaderLines_file_type_witness :
  nth 1 (printHeaderLines sampleBMPHeader sampleDIBHeader) ""%string
  = "- FileType BM"%string.
Proof.
  apply (printHeaderLines_file_type sampleWorld "in.bmp"). reflexivity.
Defined.
